(** * marsutils.controlmanager: the dashboard control-mode manager

    A shallow embedding of [src/marsutils/controlmanager.py]: the
    [ControlInterface] base class, the three methods of [ControlManager]
    ([__init__], [teleopPeriodic], [control_mode_changed]), and the two
    class decorators [with_ctrl_manager] and [provide_setup] with the
    closures they install.

    Python objects are records carrying their identity; the calls the manager
    makes on its collaborators (the logger, the dashboard chooser, the hooks
    of the interfaces) are recorded in the order they happen; an exception is
    a result of its own, and the state a method leaves behind when it raises
    is kept. *)

From Stdlib Require Import String.
From Stdlib Require Import List ZArith Bool Lia Sorted Permutation.
Import ListNotations.

Local Open Scope Z_scope.

(** ** Python values and exceptions *)

(** The values a class attribute such as [_DISPLAY_NAME] can hold, as far as
    [isinstance(v, str)] tells them apart. *)
Inductive pyval : Type :=
| PyStr (s : string)
| PyInt (n : Z)
| PyNone.

Definition isinstance_str (v : pyval) : bool :=
  match v with
  | PyStr _ => true
  | _ => false
  end.

Inductive exn : Type :=
| AssertionError (msg : string)
| IndexError
| HookError (msg : string).

Inductive outcome (A : Type) : Type :=
| Return (a : A)
| Raise (e : exn).

Arguments Return {A} a.
Arguments Raise {A} e.

(** A hook of an interface is opaque code of the robot: what the manager sees
    of it is that it was called, and whether it returned or raised.  An
    interface carries the outcome of each of its hooks; the hooks do not
    reach back into the manager. *)
Inductive hook : Type :=
| HteleopPeriodic
| Henabled
| Hdisabled.

(** ** class ControlInterface *)

Module ControlInterface.

Record t : Type := mk {
  (* id(self): two references denote one object iff they agree on it *)
  oid : nat;
  (* self.__class__.__name__ *)
  class_name : string;
  (* the attribute may be absent: the base class only annotates it *)
  _DISPLAY_NAME : option pyval;
  (* defaults to 0 in the base class *)
  _SORT : Z;
  teleopPeriodic : outcome unit;
  enabled : outcome unit;
  disabled : outcome unit
}.

(** [a is b] / the default [__eq__]. *)
Definition same (a b : t) : bool := Nat.eqb (oid a) (oid b).

Definition run (h : hook) (m : t) : outcome unit :=
  match h with
  | HteleopPeriodic => teleopPeriodic m
  | Henabled => enabled m
  | Hdisabled => disabled m
  end.

End ControlInterface.

(** ** What the manager does to the outside *)

Inductive level : Type := ERROR | WARNING.

(** The three messages of the class, by their format string. *)
Inductive message : Type :=
| NoDisplayName (cls : string)        (* ... has no "_DISPLAY_NAME" attr, skipping *)
| NonStringDisplayName (cls : string) (* ... has non-string "_DISPLAY_NAME" attr *)
| InvalidControlMode (sel : Z).       (* Invalid control mode: {new_selected} *)

Inductive event : Type :=
| Log (lv : level) (msg : message)
| Call (m : ControlInterface.t) (h : hook).

(** Calls on the [wpilib.SendableChooser].  The chooser is an object of the
    library: what it stores of these calls is its own business, and what is
    recorded here is the calls the manager makes on it, in order. *)
Inductive chooser_call : Type :=
| addDefault (name : pyval) (value : nat)
| addObject (name : pyval) (value : nat).

(** ** The builtins used *)

Section Sorted.

Context {A : Type} (key : A -> Z).

(** One step of a stable ascending sort that, as the builtin, compares keys
    with [<] only: [x] came before every element of [l] in the input, so it
    goes in front of the elements it is not greater than. *)
Fixpoint insert_lt (x : A) (l : list A) : list A :=
  match l with
  | [] => [x]
  | y :: l' => if key y <? key x then y :: insert_lt x l' else x :: y :: l'
  end.

(** [sorted(l, key=key)] *)
Fixpoint sorted (l : list A) : list A :=
  match l with
  | [] => []
  | x :: l' => insert_lt x (sorted l')
  end.

(** [sorted(l, key=key, reverse=True)]: the builtin reverses the list,
    sorts it, and reverses the result, which keeps equal keys in their
    input order. *)
Definition sorted_reverse (l : list A) : list A := rev (sorted (rev l)).

End Sorted.

(** [l[i]] for a Python [int] index. *)
Definition getitem {A : Type} (l : list A) (i : Z) : outcome A :=
  let n := Z.of_nat (length l) in
  let j := if i <? 0 then i + n else i in
  if (j <? 0) || (n <=? j) then Raise IndexError
  else match nth_error l (Z.to_nat j) with
       | Some a => Return a
       | None => Raise IndexError
       end.

(** ** class ControlManager *)

Module ControlManager.

Record t : Type := mk {
  control_mode : option ControlInterface.t;
  control_interfaces : list ControlInterface.t;
  control_chooser : list chooser_call
}.

(** The result of a method: what it returned or raised, the object as it
    is left, and what happened meanwhile, oldest first. *)
Record result (A : Type) : Type := mkResult {
  value : outcome A;
  self : t;
  trace : list event
}.

Arguments mkResult {A} value self trace.
Arguments value {A} r.
Arguments self {A} r.
Arguments trace {A} r.

Definition M (A : Type) : Type := t -> result A.

Definition ret {A : Type} (a : A) : M A :=
  fun s => mkResult (Return a) s [].

Definition bind {A B : Type} (m : M A) (k : A -> M B) : M B :=
  fun s =>
    let r := m s in
    match value r with
    | Return a =>
        let r' := k a (self r) in
        mkResult (value r') (self r') (trace r ++ trace r')
    | Raise e => mkResult (Raise e) (self r) (trace r)
    end.

Definition lift {A : Type} (o : outcome A) : M A :=
  fun s => mkResult o s [].

Definition emit (e : event) : M unit :=
  fun s => mkResult (Return tt) s [e].

Definition get_control_mode : M (option ControlInterface.t) :=
  fun s => mkResult (Return (control_mode s)) s [].

Definition get_control_interfaces : M (list ControlInterface.t) :=
  fun s => mkResult (Return (control_interfaces s)) s [].

Definition set_control_mode (m : option ControlInterface.t) : M unit :=
  fun s => mkResult (Return tt)
             (mk m (control_interfaces s) (control_chooser s)) [].

(** [mode.hook()] *)
Definition call (m : ControlInterface.t) (h : hook) : M unit :=
  fun s => mkResult (ControlInterface.run h m) s [Call m h].

Declare Scope py_scope.
Delimit Scope py_scope with py.
Notation "x <- m ;; k" := (bind m (fun x => k))
  (at level 100, m at next level, right associativity) : py_scope.
Notation "m ;; k" := (bind m (fun _ => k))
  (at level 100, right associativity) : py_scope.
Local Open Scope py_scope.

(** The loop of [__init__] over [enumerate(interfaces)], from index [i]
    on; it appends to [self.control_interfaces], registers with the
    chooser and logs. *)
Fixpoint init_loop (i : nat) (interfaces : list ControlInterface.t)
         (acc : list ControlInterface.t * list chooser_call * list event)
  : list ControlInterface.t * list chooser_call * list event :=
  match interfaces with
  | [] => acc
  | mode :: rest =>
      let '(cis, chooser, log) := acc in
      match ControlInterface._DISPLAY_NAME mode with
      | None =>
          init_loop (S i) rest
            (cis, chooser,
             log ++ [Log ERROR (NoDisplayName (ControlInterface.class_name mode))])
      | Some name =>
          if negb (isinstance_str name) then
            init_loop (S i) rest
              (cis, chooser,
               log ++ [Log ERROR
                         (NonStringDisplayName (ControlInterface.class_name mode))])
          else
            init_loop (S i) rest
              (cis ++ [mode],
               chooser ++ [if Nat.eqb i 0 then addDefault name i
                           else addObject name i],
               log)
      end
  end.

(** The constructor, called with the positional arguments [interfaces]. *)
Definition __init__ (interfaces : list ControlInterface.t) : outcome t * list event :=
  if negb (0 <? Z.of_nat (length interfaces)) then
    (Raise (AssertionError "No control interfaces given"%string), [])
  else
    let interfaces := sorted_reverse ControlInterface._SORT interfaces in
    let '(cis, chooser, log) := init_loop 0 interfaces ([], [], []) in
    (Return (mk None cis chooser), log).

Definition teleopPeriodic : M unit :=
  mode <- get_control_mode ;;
  match mode with
  | Some m => call m HteleopPeriodic
  | None => ret tt
  end.

(** [self.control_mode != target]: [None] differs from every object, and
    two objects differ unless they are one. *)
Definition differs (mode : option ControlInterface.t)
           (target : ControlInterface.t) : bool :=
  match mode with
  | None => true
  | Some m => negb (ControlInterface.same m target)
  end.

(** [new_value] is not used by the method; [new_selected] is what
    [self.control_chooser.getSelected()] answers. *)
Definition control_mode_changed (new_selected : option Z) : M unit :=
  match new_selected with
  | None => ret tt
  | Some new_selected =>
      cis <- get_control_interfaces ;;
      if Z.of_nat (length cis) <=? new_selected then
        emit (Log ERROR (InvalidControlMode new_selected))
      else
        mode <- get_control_mode ;;
        target <- lift (getitem cis new_selected) ;;
        if differs mode target then
          (match mode with
           | Some m => call m Hdisabled
           | None => ret tt
           end) ;;
          cis <- get_control_interfaces ;;
          target <- lift (getitem cis new_selected) ;;
          set_control_mode (Some target) ;;
          mode <- get_control_mode ;;
          match mode with
          | Some m => call m Henabled
          | None => ret tt
          end
        else ret tt
  end.

End ControlManager.

Import ControlManager.

(** ** Interfaces used as concrete inputs *)

(** A subclass of the base class that overrides no hook. *)
Definition interface (id : nat) (cls : string) (name : option pyval)
           (sort : Z) : ControlInterface.t :=
  ControlInterface.mk id cls name sort (Return tt) (Return tt) (Return tt).

Definition modeA : ControlInterface.t := interface 1 "A" (Some (PyStr "A")) 0.
Definition modeB : ControlInterface.t := interface 2 "B" (Some (PyStr "B")) 0.
Definition nameless : ControlInterface.t := interface 3 "Nameless" None 0.
Definition numbered : ControlInterface.t := interface 4 "Numbered" (Some (PyInt 7)) 0.
Definition blank : ControlInterface.t := interface 5 "Blank" (Some (PyStr "")) 0.

(** The four interfaces of the priority example, [_SORT] 3, 1, 3, 0. *)
Definition mode0 : ControlInterface.t := interface 10 "M0" (Some (PyStr "m0")) 3.
Definition mode1 : ControlInterface.t := interface 11 "M1" (Some (PyStr "m1")) 1.
Definition mode2 : ControlInterface.t := interface 12 "M2" (Some (PyStr "m2")) 3.
Definition mode3 : ControlInterface.t := interface 13 "M3" (Some (PyStr "m3")) 0.

(** An interface whose [enabled] raises. *)
Definition faulty : ControlInterface.t :=
  ControlInterface.mk 6 "Faulty" (Some (PyStr "F")) 0
    (Return tt) (Raise (HookError "enabled")) (Return tt).

(** ** What the constructor keeps, registers and logs *)

(** The check of the loop: the attribute exists and is a [str]. *)
Definition accepted (m : ControlInterface.t) : bool :=
  match ControlInterface._DISPLAY_NAME m with
  | Some v => isinstance_str v
  | None => false
  end.

(** The check the specification words: the display name is a non-empty
    text. *)
Definition has_nonempty_name (m : ControlInterface.t) : bool :=
  match ControlInterface._DISPLAY_NAME m with
  | Some (PyStr s) => negb (String.eqb s "")
  | _ => false
  end.

(** The chooser entries of the accepted interfaces of [l], the first of
    which stands at position [i] of the sorted tuple. *)
Fixpoint registrations (i : nat) (l : list ControlInterface.t)
  : list chooser_call :=
  match l with
  | [] => []
  | m :: l' =>
      match ControlInterface._DISPLAY_NAME m with
      | Some (PyStr s) =>
          (if Nat.eqb i 0 then addDefault (PyStr s) i else addObject (PyStr s) i)
            :: registrations (S i) l'
      | _ => registrations (S i) l'
      end
  end.

(** The log lines of the rejected interfaces of [l]. *)
Fixpoint complaints (l : list ControlInterface.t) : list event :=
  match l with
  | [] => []
  | m :: l' =>
      match ControlInterface._DISPLAY_NAME m with
      | None =>
          Log ERROR (NoDisplayName (ControlInterface.class_name m))
            :: complaints l'
      | Some (PyStr _) => complaints l'
      | Some _ =>
          Log ERROR (NonStringDisplayName (ControlInterface.class_name m))
            :: complaints l'
      end
  end.

Definition is_default (c : chooser_call) : bool :=
  match c with
  | addDefault _ _ => true
  | addObject _ _ => false
  end.

Definition is_log (e : event) : bool :=
  match e with
  | Log _ _ => true
  | Call _ _ => false
  end.

(** ** Driving the manager *)

(** What the host does with a built manager: the chooser reports a
    selection, or the robot loop ticks. *)
Inductive op : Type :=
| Selection (new_selected : option Z)
| Tick.

Definition run_op (o : op) : M unit :=
  match o with
  | Selection sel => control_mode_changed sel
  | Tick => teleopPeriodic
  end.

(** A sequence of calls, each made on the object the previous one left,
    whether it returned or raised; the traces are put end to end. *)
Fixpoint run_ops (ops : list op) (s : ControlManager.t)
  : ControlManager.t * list event :=
  match ops with
  | [] => (s, [])
  | o :: ops' =>
      let r := run_op o s in
      let '(s', tr) := run_ops ops' (self r) in
      (s', trace r ++ tr)
  end.

(** What [control_mode_changed] does once the index has passed the guard
    and resolved to [target]. *)
Definition switch_to (target : ControlInterface.t) (s : ControlManager.t)
  : result unit :=
  let s' := ControlManager.mk (Some target) (control_interfaces s)
              (control_chooser s) in
  match control_mode s with
  | None => mkResult (ControlInterface.enabled target) s' [Call target Henabled]
  | Some m =>
      if ControlInterface.same m target then mkResult (Return tt) s []
      else
        match ControlInterface.disabled m with
        | Raise e => mkResult (Raise e) s [Call m Hdisabled]
        | Return _ =>
            mkResult (ControlInterface.enabled target) s'
              [Call m Hdisabled; Call target Henabled]
        end
  end.

(** The active interface is one of the registered ones. *)
Definition active_registered (s : ControlManager.t) : Prop :=
  match control_mode s with
  | None => True
  | Some m => In m (control_interfaces s)
  end.

(** ** The chooser entries *)

Definition chooser_name (c : chooser_call) : pyval :=
  match c with
  | addDefault name _ => name
  | addObject name _ => name
  end.

Definition chooser_value (c : chooser_call) : nat :=
  match c with
  | addDefault _ value => value
  | addObject _ value => value
  end.

(** ** The order of the hook calls *)

(** [protocol a tr a']: the trace [tr] is one a manager whose active mode is
    [a] can produce, and it leaves [a'] active.  [teleopPeriodic] and
    [disabled] are called on the active mode only; [enabled] is called when
    no mode is active, or right after the [disabled] of the active mode
    returned; a [disabled] that raises leaves the mode active. *)
Inductive protocol
  : option ControlInterface.t -> list event -> option ControlInterface.t -> Prop :=
| protocol_done (a : option ControlInterface.t) : protocol a [] a
| protocol_log a lv msg tr a' :
    protocol a tr a' -> protocol a (Log lv msg :: tr) a'
| protocol_tick m tr a' :
    protocol (Some m) tr a' ->
    protocol (Some m) (Call m HteleopPeriodic :: tr) a'
| protocol_first m tr a' :
    protocol (Some m) tr a' -> protocol None (Call m Henabled :: tr) a'
| protocol_switch m m' tr a' :
    ControlInterface.disabled m = Return tt ->
    ControlInterface.same m m' = false ->
    protocol (Some m') tr a' ->
    protocol (Some m) (Call m Hdisabled :: Call m' Henabled :: tr) a'
| protocol_stuck m e tr a' :
    ControlInterface.disabled m = Raise e ->
    protocol (Some m) tr a' ->
    protocol (Some m) (Call m Hdisabled :: tr) a'.

(** The interface a hook call is made on. *)
Definition callee (e : event) : option ControlInterface.t :=
  match e with
  | Call m _ => Some m
  | Log _ _ => None
  end.

(** ** The decorators [with_ctrl_manager] and [provide_setup] *)

Module Robot.

(** What [getattr(_self, m, None)] answers. *)
Inductive value : Type :=
| Component (c : ControlInterface.t) (* an instance of a ControlInterface subclass *)
| Object (cls : string)              (* any other object *)
| NoneValue.

(** One name of [dir(_self)]: whether the class holds a property under it,
    and what the instance answers for it. *)
Record member : Type := mkMember {
  name : string;
  is_property : bool;
  attr : value
}.

(** A robot instance: the names [dir] lists, in the order it lists them,
    and [_self.__control_manager], unset until [robotInit] has run. *)
Record t : Type := mk {
  members : list member;
  control_manager : option ControlManager.t
}.

(** A component type named by a class annotation, with its [execute]
    method if it has one. *)
Inductive execute_impl : Type :=
| own_execute
| empty_execute.

Record ctype : Type := mkCtype {
  ctype_name : string;
  execute : option execute_impl
}.

(** The functions a robot class can hold under the names the decorators
    read and write: a method its author wrote, which is opaque code acting on
    the instance, or one of the three closures the decorators define. *)
Inductive method : Type :=
| Written (label : string) (body : t -> outcome unit * t)
| robotInit
| teleopPeriodic
| robotInitSetup.

(** The attributes of the robot class that the decorators touch.  A
    MagicRobot class always has [robotInit] and [teleopPeriodic]. *)
Record klass : Type := mkKlass {
  annotations : list (string * ctype);
  k_robotInit : method;
  k_teleopPeriodic : method;
  k_setup : option method;
  __old_robotInit_ctrlmgnr : option method;
  __old_teleopPeriodic : option method;
  __old_robotInit_setup : option method
}.

Inductive raised : Type :=
| Inner (e : exn)
| AttributeError (attribute : string)
| RecursionError.

Inductive completion : Type :=
| Returned
| Raised (e : raised).

Inductive robot_event : Type :=
| Ran (label : string)   (* a method the author wrote was entered *)
| Manager (e : event)    (* what the control manager did *)
| LogNoSetup (lv : level). (* ... was wrapped with @provide_setup but no setup() ... *)

(** The events that are a written method of the robot running. *)
Definition is_ran (e : robot_event) : bool :=
  match e with
  | Ran _ => true
  | _ => false
  end.

(** The loop of the closure [robotInit] over [dir(_self)]. *)
Fixpoint components (ms : list member) : list ControlInterface.t :=
  match ms with
  | [] => []
  | m :: rest =>
      if String.prefix "_" (name m) || is_property m then components rest
      else
        match attr m with
        | NoneValue => components rest
        | Object _ => components rest
        | Component ctyp => ctyp :: components rest
        end
  end.

(** Calling a function of the class on the instance [self], with [depth]
    frames left before the interpreter gives up with RecursionError.  The
    saved methods are looked up when the closure runs, on the class as it is
    then. *)
Fixpoint invoke (depth : nat) (k : klass) (m : method) (self : t)
  : completion * t * list robot_event :=
  match depth with
  | O => (Raised RecursionError, self, [])
  | S depth =>
      match m with
      | Written label body =>
          match body self with
          | (Return _, self') => (Returned, self', [Ran label])
          | (Raise e, self') => (Raised (Inner e), self', [Ran label])
          end
      | robotInit =>
          match __old_robotInit_ctrlmgnr k with
          | None => (Raised (AttributeError "__old_robotInit_ctrlmgnr"), self, [])
          | Some old =>
              match invoke depth k old self with
              | (Raised e, self1, tr1) => (Raised e, self1, tr1)
              | (Returned, self1, tr1) =>
                  let components := components (members self1) in
                  if negb (0 <? Z.of_nat (length components)) then
                    (Raised (Inner (AssertionError
                       "No valid control components found. Do they subclass ControlInterface?")),
                     self1, tr1)
                  else
                    match ControlManager.__init__ components with
                    | (Raise e, log) =>
                        (Raised (Inner e), self1, tr1 ++ map Manager log)
                    | (Return cm, log) =>
                        (Returned, mk (members self1) (Some cm),
                         tr1 ++ map Manager log)
                    end
              end
          end
      | teleopPeriodic =>
          match control_manager self with
          | None => (Raised (AttributeError "__control_manager"), self, [])
          | Some cm =>
              let r := ControlManager.teleopPeriodic cm in
              let self1 := mk (members self) (Some (ControlManager.self r)) in
              let tr1 := map Manager (ControlManager.trace r) in
              match ControlManager.value r with
              | Raise e => (Raised (Inner e), self1, tr1)
              | Return _ =>
                  match __old_teleopPeriodic k with
                  | None =>
                      (Raised (AttributeError "__old_teleopPeriodic"), self1, tr1)
                  | Some old =>
                      match invoke depth k old self1 with
                      | (c, self2, tr2) => (c, self2, tr1 ++ tr2)
                      end
                  end
              end
          end
      | robotInitSetup =>
          match __old_robotInit_setup k with
          | None => (Raised (AttributeError "__old_robotInit_setup"), self, [])
          | Some old =>
              match invoke depth k old self with
              | (Raised e, self1, tr1) => (Raised e, self1, tr1)
              | (Returned, self1, tr1) =>
                  match k_setup k with
                  | Some setup =>
                      match invoke depth k setup self1 with
                      | (c, self2, tr2) => (c, self2, tr1 ++ tr2)
                      end
                  | None => (Returned, self1, tr1 ++ [LogNoSetup WARNING])
                  end
              end
          end
      end
  end.

(** How a call of a written method ends, as its caller sees it. *)
Definition completed (o : outcome unit) : completion :=
  match o with
  | Return _ => Returned
  | Raise e => Raised (Inner e)
  end.

(** [@with_ctrl_manager] *)
Definition with_ctrl_manager (k : klass) : klass :=
  mkKlass
    (map (fun '(m, ctyp) =>
            match execute ctyp with
            | Some _ => (m, ctyp)
            | None => (m, mkCtype (ctype_name ctyp) (Some empty_execute))
            end)
         (annotations k))
    robotInit
    teleopPeriodic
    (k_setup k)
    (Some (k_robotInit k))
    (Some (k_teleopPeriodic k))
    (__old_robotInit_setup k).

(** [@provide_setup] *)
Definition provide_setup (k : klass) : klass :=
  mkKlass
    (annotations k)
    robotInitSetup
    (k_teleopPeriodic k)
    (k_setup k)
    (__old_robotInit_ctrlmgnr k)
    (__old_teleopPeriodic k)
    (Some (k_robotInit k)).

(** A robot class as its author wrote it, before any decorator. *)
Definition plain (init periodic : method) (setup : option method) : klass :=
  mkKlass [] init periodic setup None None None.

End Robot.

(** ** A robot used as a concrete input *)

(** What [dir] lists on the example robot once its objects exist: two
    interfaces under public names, one under a private name, a property,
    an attribute holding [None] and an object of another class. *)
Definition example_members : list Robot.member :=
  [ Robot.mkMember "_hidden" false (Robot.Component modeB);
    Robot.mkMember "arcade" false (Robot.Component modeA);
    Robot.mkMember "gyro" false (Robot.Object "Gyro");
    Robot.mkMember "status" true Robot.NoneValue;
    Robot.mkMember "tank" false (Robot.Component mode0);
    Robot.mkMember "unset" false Robot.NoneValue ].

(** A [robotInit] that creates the objects of the robot. *)
Definition creating_robotInit : Robot.method :=
  Robot.Written "robotInit"
    (fun r => (Return tt, Robot.mk example_members (Robot.control_manager r))).

Definition plain_teleopPeriodic : Robot.method :=
  Robot.Written "teleopPeriodic" (fun r => (Return tt, r)).

Definition plain_setup : Robot.method :=
  Robot.Written "setup" (fun r => (Return tt, r)).

Definition example_robot : Robot.klass :=
  Robot.plain creating_robotInit plain_teleopPeriodic (Some plain_setup).

Definition fresh_robot : Robot.t := Robot.mk [] None.

(** ** The builtins *)

Section SortedFacts.

Context {A : Type} (key : A -> Z).

Lemma insert_lt_perm (x : A) (l : list A) :
  Permutation (insert_lt key x l) (x :: l).
Proof.
  induction l as [|y l IH]; simpl.
  - apply Permutation_refl.
  - destruct (key y <? key x).
    + rewrite IH. apply perm_swap.
    + apply Permutation_refl.
Qed.

Lemma sorted_perm (l : list A) : Permutation (sorted key l) l.
Proof.
  induction l as [|x l IH]; simpl.
  - constructor.
  - rewrite insert_lt_perm. now constructor.
Qed.

Lemma sorted_reverse_perm (l : list A) :
  Permutation (sorted_reverse key l) l.
Proof.
  unfold sorted_reverse.
  rewrite <- Permutation_rev, sorted_perm, <- Permutation_rev.
  apply Permutation_refl.
Qed.

Lemma insert_lt_filter (k : Z) (x : A) (l : list A) :
  filter (fun a => key a =? k) (insert_lt key x l)
  = filter (fun a => key a =? k) (x :: l).
Proof.
  induction l as [|y l IH]; [reflexivity|].
  simpl insert_lt. destruct (key y <? key x) eqn:Hlt; [|reflexivity].
  apply Z.ltb_lt in Hlt.
  simpl in *. rewrite IH.
  destruct (key x =? k) eqn:Hx; [|reflexivity].
  apply Z.eqb_eq in Hx.
  assert (Hy : (key y =? k) = false) by (apply Z.eqb_neq; lia).
  now rewrite Hy.
Qed.

Lemma sorted_filter (k : Z) (l : list A) :
  filter (fun a => key a =? k) (sorted key l)
  = filter (fun a => key a =? k) l.
Proof.
  induction l as [|x l IH]; [reflexivity|].
  simpl sorted. rewrite insert_lt_filter. simpl. now rewrite IH.
Qed.

Lemma filter_rev (p : A -> bool) (l : list A) :
  filter p (rev l) = rev (filter p l).
Proof.
  induction l as [|x l IH]; [reflexivity|].
  simpl. rewrite filter_app, IH. simpl.
  destruct (p x); simpl; [reflexivity | now rewrite app_nil_r].
Qed.

(** Stability: the interfaces of one priority keep their input order. *)
Lemma sorted_reverse_stable (k : Z) (l : list A) :
  filter (fun a => key a =? k) (sorted_reverse key l)
  = filter (fun a => key a =? k) l.
Proof.
  unfold sorted_reverse.
  now rewrite filter_rev, sorted_filter, filter_rev, rev_involutive.
Qed.

Lemma insert_lt_ascending (x : A) (l : list A) :
  StronglySorted (fun a b => key a <= key b) l ->
  StronglySorted (fun a b => key a <= key b) (insert_lt key x l).
Proof.
  induction 1 as [|y l Hs IH Hy]; simpl.
  - repeat constructor.
  - destruct (key y <? key x) eqn:Hlt.
    + apply Z.ltb_lt in Hlt. constructor; [exact IH|].
      eapply Permutation_Forall.
      * symmetry. apply insert_lt_perm.
      * constructor; [lia | exact Hy].
    + apply Z.ltb_ge in Hlt.
      constructor; [now constructor|].
      constructor; [exact Hlt|].
      eapply Forall_impl; [|exact Hy]. simpl. intros; lia.
Qed.

Lemma sorted_ascending (l : list A) :
  StronglySorted (fun a b => key a <= key b) (sorted key l).
Proof.
  induction l as [|x l IH]; simpl.
  - constructor.
  - now apply insert_lt_ascending.
Qed.

Lemma StronglySorted_snoc (R : A -> A -> Prop) (l : list A) (x : A) :
  StronglySorted R l -> Forall (fun y => R y x) l ->
  StronglySorted R (l ++ [x]).
Proof.
  induction 1 as [|y l Hs IH Hy]; intros Hx; simpl.
  - repeat constructor.
  - inversion Hx; subst. constructor.
    + now apply IH.
    + apply Forall_app. split; [exact Hy | now repeat constructor].
Qed.

Lemma StronglySorted_rev (R : A -> A -> Prop) (l : list A) :
  StronglySorted R l -> StronglySorted (fun a b => R b a) (rev l).
Proof.
  induction 1 as [|y l Hs IH Hy]; simpl.
  - constructor.
  - apply StronglySorted_snoc; [exact IH|].
    apply Forall_rev. exact Hy.
Qed.

(** The result is in descending order of the key. *)
Lemma sorted_reverse_descending (l : list A) :
  StronglySorted (fun a b => key b <= key a) (sorted_reverse key l).
Proof.
  unfold sorted_reverse.
  apply (StronglySorted_rev (fun a b => key a <= key b)).
  apply sorted_ascending.
Qed.

Lemma StronglySorted_filter (R : A -> A -> Prop) (p : A -> bool) (l : list A) :
  StronglySorted R l -> StronglySorted R (filter p l).
Proof.
  induction 1 as [|y l Hs IH Hy]; simpl.
  - constructor.
  - destruct (p y); [|exact IH].
    constructor; [exact IH|].
    apply Forall_forall. intros z Hz. apply filter_In in Hz.
    rewrite Forall_forall in Hy. now apply Hy.
Qed.

Lemma filter_filter_comm (p q : A -> bool) (l : list A) :
  filter p (filter q l) = filter q (filter p l).
Proof.
  induction l as [|x l IH]; [reflexivity|].
  simpl. destruct (p x) eqn:Hp, (q x) eqn:Hq; simpl;
    rewrite ?Hp, ?Hq, IH; reflexivity.
Qed.

End SortedFacts.

(** ** The constructor *)

Lemma init_loop_spec (l : list ControlInterface.t) :
  forall (i : nat) cis chooser log,
    init_loop i l (cis, chooser, log)
    = (cis ++ filter accepted l, chooser ++ registrations i l,
       log ++ complaints l).
Proof.
  induction l as [|m l IH]; intros i cis chooser log; simpl.
  - now rewrite !app_nil_r.
  - unfold accepted at 1.
    destruct (ControlInterface._DISPLAY_NAME m) as [[s|n|]|]; simpl;
      rewrite IH, <- ?app_assoc; reflexivity.
Qed.

(** The constructor in closed form: it refuses an empty argument list and
    nothing else. *)
Lemma init_spec (interfaces : list ControlInterface.t) :
  __init__ interfaces
  = match interfaces with
    | [] => (Raise (AssertionError "No control interfaces given"), [])
    | _ :: _ =>
        let tuple := sorted_reverse ControlInterface._SORT interfaces in
        (Return (ControlManager.mk None (filter accepted tuple)
                   (registrations 0 tuple)),
         complaints tuple)
    end.
Proof.
  unfold __init__.
  destruct interfaces as [|m l]; [reflexivity|].
  cbv zeta. rewrite init_loop_spec.
  replace (negb (0 <? Z.of_nat (length (m :: l)))) with false; [reflexivity|].
  symmetry. apply negb_false_iff, Z.ltb_lt. simpl length. lia.
Qed.

Lemma complaints_length (l : list ControlInterface.t) :
  length (complaints l) = length (filter (fun m => negb (accepted m)) l).
Proof.
  induction l as [|m l IH]; [reflexivity|].
  unfold accepted at 1. simpl.
  destruct (ControlInterface._DISPLAY_NAME m) as [[s|n|]|]; simpl;
    now rewrite IH.
Qed.

Lemma complaints_all_errors (l : list ControlInterface.t) :
  Forall (fun e => exists msg, e = Log ERROR msg) (complaints l).
Proof.
  induction l as [|m l IH]; simpl; [constructor|].
  destruct (ControlInterface._DISPLAY_NAME m) as [[s|n|]|];
    try exact IH; constructor; eauto.
Qed.

Lemma filter_nil_iff {A : Type} (p : A -> bool) (l : list A) :
  filter p l = [] <-> Forall (fun a => p a = false) l.
Proof.
  induction l as [|x l IH]; simpl.
  - split; constructor.
  - destruct (p x) eqn:Hp; split; intros H.
    + discriminate.
    + inversion H; congruence.
    + constructor; [exact Hp | now apply IH].
    + inversion H; now apply IH.
Qed.

Lemma filter_length_perm {A : Type} (p : A -> bool) (l l' : list A) :
  Permutation l l' -> length (filter p l) = length (filter p l').
Proof.
  induction 1; simpl; try congruence.
  - destruct (p x); simpl; congruence.
  - destruct (p x), (p y); reflexivity.
Qed.

(** ** Indexing *)

Lemma getitem_inv {A : Type} (l : list A) (i : Z) (a : A) :
  getitem l i = Return a ->
  - Z.of_nat (length l) <= i < Z.of_nat (length l)
  /\ nth_error l (Z.to_nat (if i <? 0 then i + Z.of_nat (length l) else i))
     = Some a.
Proof.
  unfold getitem.
  destruct (i <? 0) eqn:Hneg;
    [apply Z.ltb_lt in Hneg | apply Z.ltb_ge in Hneg];
    match goal with
    | |- context [?x || ?y] => destruct (x || y) eqn:Hb
    end; try discriminate;
    apply orb_false_iff in Hb; destruct Hb as [H1 H2];
    apply Z.ltb_ge in H1; apply Z.leb_gt in H2;
    match goal with
    | |- context [nth_error ?l ?k] => destruct (nth_error l k) eqn:Hn
    end; try discriminate;
    intros [= ->]; (split; [lia | reflexivity]).
Qed.

Lemma getitem_In {A : Type} (l : list A) (i : Z) (a : A) :
  getitem l i = Return a -> In a l.
Proof.
  intros H. apply getitem_inv in H. destruct H as [_ H].
  eapply nth_error_In. exact H.
Qed.

Lemma getitem_in_range {A : Type} (l : list A) (i : Z) :
  0 <= i < Z.of_nat (length l) ->
  exists a, nth_error l (Z.to_nat i) = Some a /\ getitem l i = Return a.
Proof.
  intros Hi. unfold getitem.
  replace (i <? 0) with false by (symmetry; apply Z.ltb_ge; lia).
  replace (i <? 0) with false by (symmetry; apply Z.ltb_ge; lia).
  replace (Z.of_nat (length l) <=? i) with false
    by (symmetry; apply Z.leb_gt; lia).
  simpl. destruct (nth_error l (Z.to_nat i)) as [a|] eqn:Hn.
  - now exists a.
  - apply nth_error_None in Hn. lia.
Qed.

(** A negative index counts from the end. *)
Lemma getitem_negative {A : Type} (l : list A) (i : Z) :
  - Z.of_nat (length l) <= i < 0 ->
  getitem l i = getitem l (Z.of_nat (length l) + i).
Proof.
  intros Hi. unfold getitem.
  replace (i <? 0) with true by (symmetry; apply Z.ltb_lt; lia).
  replace (Z.of_nat (length l) + i <? 0) with false
    by (symmetry; apply Z.ltb_ge; lia).
  now rewrite (Z.add_comm i).
Qed.

Lemma getitem_below {A : Type} (l : list A) (i : Z) :
  i < - Z.of_nat (length l) -> getitem l i = Raise IndexError.
Proof.
  intros Hi. unfold getitem.
  replace (i <? 0) with true by (symmetry; apply Z.ltb_lt; lia).
  replace (i + Z.of_nat (length l) <? 0) with true
    by (symmetry; apply Z.ltb_lt; lia).
  reflexivity.
Qed.

(** ** The selection callback in closed form *)

Lemma control_mode_changed_spec (i : Z) (s : ControlManager.t) :
  control_mode_changed (Some i) s
  = if Z.of_nat (length (control_interfaces s)) <=? i
    then mkResult (Return tt) s [Log ERROR (InvalidControlMode i)]
    else match getitem (control_interfaces s) i with
         | Raise e => mkResult (Raise e) s []
         | Return target => switch_to target s
         end.
Proof.
  unfold control_mode_changed, bind, get_control_interfaces, get_control_mode,
    lift, emit, set_control_mode, call, ret, switch_to, differs; simpl.
  destruct (Z.of_nat (length (control_interfaces s)) <=? i); [reflexivity|].
  destruct (getitem (control_interfaces s) i) as [target|e] eqn:Hsel; simpl;
    [|reflexivity].
  destruct (control_mode s) as [m|]; simpl.
  - destruct (ControlInterface.same m target); simpl; [reflexivity|].
    destruct (ControlInterface.disabled m) as [[]|e]; simpl; [|reflexivity].
    rewrite Hsel; simpl.
    destruct (ControlInterface.enabled target) as [[]|e]; reflexivity.
  - rewrite Hsel; simpl.
    destruct (ControlInterface.enabled target) as [[]|e]; reflexivity.
Qed.

Lemma teleopPeriodic_spec (s : ControlManager.t) :
  teleopPeriodic s
  = match control_mode s with
    | Some m => mkResult (ControlInterface.teleopPeriodic m) s
                  [Call m HteleopPeriodic]
    | None => mkResult (Return tt) s []
    end.
Proof.
  unfold teleopPeriodic, bind, get_control_mode, call, ret; simpl.
  destruct (control_mode s) as [m|]; simpl; [|reflexivity].
  destruct (ControlInterface.teleopPeriodic m); reflexivity.
Qed.

Lemma switch_to_registry (target : ControlInterface.t) (s : ControlManager.t) :
  control_interfaces (self (switch_to target s)) = control_interfaces s
  /\ control_chooser (self (switch_to target s)) = control_chooser s.
Proof.
  unfold switch_to.
  destruct (control_mode s) as [m|]; simpl; [|now split].
  destruct (ControlInterface.same m target); simpl; [now split|].
  destruct (ControlInterface.disabled m); simpl; now split.
Qed.

Lemma switch_to_mode (target : ControlInterface.t) (s : ControlManager.t) :
  control_mode (self (switch_to target s)) = control_mode s
  \/ control_mode (self (switch_to target s)) = Some target.
Proof.
  unfold switch_to.
  destruct (control_mode s) as [m|] eqn:Hm; simpl; [|now right].
  destruct (ControlInterface.same m target); simpl; [now left|].
  destruct (ControlInterface.disabled m); simpl; [now right | now left].
Qed.

(** ** One call of the host, and sequences of calls *)

Lemma run_op_mode (o : op) (s : ControlManager.t) :
  control_interfaces (self (run_op o s)) = control_interfaces s
  /\ (control_mode (self (run_op o s)) = control_mode s
      \/ exists target,
           In target (control_interfaces s)
           /\ control_mode (self (run_op o s)) = Some target).
Proof.
  destruct o as [[i|]|]; unfold run_op.
  - rewrite control_mode_changed_spec.
    destruct (Z.of_nat (length (control_interfaces s)) <=? i); simpl;
      [now auto|].
    destruct (getitem (control_interfaces s) i) as [target|e] eqn:Hg; simpl;
      [|now auto].
    split; [apply switch_to_registry|].
    destruct (switch_to_mode target s) as [H|H]; [now left|].
    right. exists target. split; [|exact H].
    eapply getitem_In; exact Hg.
  - simpl. now auto.
  - rewrite teleopPeriodic_spec.
    destruct (control_mode s) eqn:Hm; simpl; rewrite ?Hm; now auto.
Qed.

Lemma run_op_active_registered (o : op) (s : ControlManager.t) :
  active_registered s -> active_registered (self (run_op o s)).
Proof.
  unfold active_registered. intros Hs.
  destruct (run_op_mode o s) as [Hr [Hm | [target [Hin Hm]]]];
    rewrite Hm, Hr; [exact Hs | exact Hin].
Qed.

Lemma run_op_stays_active (o : op) (s : ControlManager.t) :
  control_mode s <> None -> control_mode (self (run_op o s)) <> None.
Proof.
  intros Hs.
  destruct (run_op_mode o s) as [_ [Hm | [target [_ Hm]]]]; rewrite Hm;
    [exact Hs | discriminate].
Qed.

Lemma run_ops_invariant (ops : list op) :
  forall s : ControlManager.t,
    control_interfaces (fst (run_ops ops s)) = control_interfaces s
    /\ (active_registered s -> active_registered (fst (run_ops ops s)))
    /\ (control_mode s <> None -> control_mode (fst (run_ops ops s)) <> None).
Proof.
  induction ops as [|o ops IH]; intros s; simpl.
  - now auto.
  - destruct (IH (self (run_op o s))) as [Hr [Ha Hn]].
    destruct (run_ops ops (self (run_op o s))) as [s' tr]; simpl in *.
    repeat split.
    + rewrite Hr. apply run_op_mode.
    + intros Hs. apply Ha. now apply run_op_active_registered.
    + intros Hs. apply Hn. now apply run_op_stays_active.
Qed.

(** A default entry is made exactly when the first interface of the sorted
    tuple passes the check: the test is on the position in the tuple, not on
    the position in the registry. *)
Lemma registrations_no_default (i : nat) (l : list ControlInterface.t) :
  existsb is_default (registrations (S i) l) = false.
Proof.
  revert i. induction l as [|m l IH]; intros i; simpl; [reflexivity|].
  destruct (ControlInterface._DISPLAY_NAME m) as [[s|n|]|]; simpl; apply IH.
Qed.

Lemma registrations_default (l : list ControlInterface.t) :
  existsb is_default (registrations 0 l)
  = match l with
    | [] => false
    | m :: _ => accepted m
    end.
Proof.
  destruct l as [|m l]; [reflexivity|].
  unfold accepted. simpl.
  destruct (ControlInterface._DISPLAY_NAME m) as [[s|n|]|]; simpl;
    try apply registrations_no_default; reflexivity.
Qed.

(** * The claims *)

(** ** Construction *)

(** C1, as stated, fails.  Two interfaces are given, one without a display
    name and one whose display name is a number: both fail the validation,
    yet the constructor returns a manager, whose registry is empty. *)
Lemma init_all_rejected_returns :
  [nameless; numbered] <> []
  /\ Forall (fun m => has_nonempty_name m = false) [nameless; numbered]
  /\ __init__ [nameless; numbered]
     = (Return (ControlManager.mk None [] []),
        [Log ERROR (NoDisplayName "Nameless");
         Log ERROR (NonStringDisplayName "Numbered")]).
Proof.
  split; [discriminate|]. split; [|reflexivity].
  repeat constructor.
Qed.

(** C1, amended.  The constructor raises exactly when it is given no
    interface at all (an AssertionError).  Given at least one, it returns a
    manager with no active mode, having logged one error for each interface
    whose display name is missing or not a string; the registry of that
    manager is empty exactly when every given interface fails this check. *)
Theorem init_raises_only_without_interfaces (interfaces : list ControlInterface.t) :
  (interfaces = []
   /\ __init__ interfaces
      = (Raise (AssertionError "No control interfaces given"), []))
  \/ (interfaces <> []
      /\ exists cm log,
           __init__ interfaces = (Return cm, log)
           /\ control_mode cm = None
           /\ (control_interfaces cm = []
               <-> Forall (fun m => accepted m = false) interfaces)
           /\ Forall (fun e => exists msg, e = Log ERROR msg) log
           /\ length log
              = length (filter (fun m => negb (accepted m)) interfaces)).
Proof.
  rewrite init_spec.
  destruct interfaces as [|m l]; [left; now split|].
  right. split; [discriminate|].
  eexists _, _. split; [reflexivity|]. simpl control_mode.
  simpl control_interfaces.
  split; [reflexivity|]. split; [|split].
  - rewrite filter_nil_iff. split; intros H.
    + eapply Permutation_Forall; [apply sorted_reverse_perm | exact H].
    + eapply Permutation_Forall;
        [symmetry; apply sorted_reverse_perm | exact H].
  - apply complaints_all_errors.
  - rewrite complaints_length.
    apply filter_length_perm, sorted_reverse_perm.
Qed.

(** C3, as stated, fails.  An interface whose display name is the empty
    string is given between two well-named ones: it is kept in the registry
    and entered in the chooser, and nothing is logged. *)
Lemma init_keeps_blank_name :
  has_nonempty_name blank = false
  /\ __init__ [modeA; blank; modeB]
     = (Return (ControlManager.mk None [modeA; blank; modeB]
                  [addDefault (PyStr "A") 0; addObject (PyStr "") 1;
                   addObject (PyStr "B") 2]),
        []).
Proof. split; reflexivity. Qed.

(** C3, amended.  During construction every interface whose display name
    is missing or is not a string is left out of the registry, with one
    error-level line logged for it, and construction goes on with the others;
    the registry holds exactly the given interfaces whose display name is a
    string (the empty string included), in descending order of priority.
    [A; no name; B] yields the registry [A; B] and one logged line. *)
Theorem init_keeps_string_names (interfaces : list ControlInterface.t)
        (cm : ControlManager.t) (log : list event)
        (Hinit : __init__ interfaces = (Return cm, log)) :
  control_interfaces cm
  = filter accepted (sorted_reverse ControlInterface._SORT interfaces)
  /\ (forall m, In m (control_interfaces cm)
                <-> In m interfaces /\ accepted m = true)
  /\ StronglySorted
       (fun a b => ControlInterface._SORT b <= ControlInterface._SORT a)
       (control_interfaces cm)
  /\ log = complaints (sorted_reverse ControlInterface._SORT interfaces)
  /\ Forall (fun e => exists msg, e = Log ERROR msg) log
  /\ length log = length (filter (fun m => negb (accepted m)) interfaces)
  /\ fst (__init__ [modeA; nameless; modeB])
     = Return (ControlManager.mk None [modeA; modeB]
                 [addDefault (PyStr "A") 0; addObject (PyStr "B") 2])
  /\ snd (__init__ [modeA; nameless; modeB])
     = [Log ERROR (NoDisplayName "Nameless")].
Proof.
  rewrite init_spec in Hinit.
  destruct interfaces as [|m0 l]; [discriminate|].
  cbv zeta in Hinit. injection Hinit as <- <-. simpl control_interfaces.
  split; [reflexivity|]. split; [|split; [|split; [|split; [|split]]]].
  - intros m. rewrite filter_In.
    split; intros [Hin Hacc]; (split; [|exact Hacc]).
    + eapply Permutation_in; [apply sorted_reverse_perm | exact Hin].
    + eapply Permutation_in;
        [symmetry; apply sorted_reverse_perm | exact Hin].
  - apply StronglySorted_filter, sorted_reverse_descending.
  - reflexivity.
  - apply complaints_all_errors.
  - rewrite complaints_length.
    apply filter_length_perm, sorted_reverse_perm.
  - split; reflexivity.
Qed.

Lemma init_keeps_string_names_witness :
  __init__ [modeA; nameless; modeB]
  = (Return (ControlManager.mk None [modeA; modeB]
               [addDefault (PyStr "A") 0; addObject (PyStr "B") 2]),
     [Log ERROR (NoDisplayName "Nameless")])
  /\ (forall m, In m [modeA; modeB]
                <-> In m [modeA; nameless; modeB] /\ accepted m = true).
Proof.
  split; [reflexivity|].
  exact (proj1 (proj2
           (init_keeps_string_names [modeA; nameless; modeB]
              (ControlManager.mk None [modeA; modeB]
                 [addDefault (PyStr "A") 0; addObject (PyStr "B") 2])
              [Log ERROR (NoDisplayName "Nameless")] eq_refl))).
Defined.

(** C4: the claim is what the comment in the loop announces (the first
    entry is the default), and the code misses it when the first interface
    of the sorted tuple is rejected.  Given [no name; A], the only surviving
    interface A is entered as a plain option under the value 1 and no entry
    is flagged as the default; the value 1 that the chooser then reports for
    A is refused by the selection callback as out of range. *)
Theorem init_first_rejected_no_default :
  __init__ [nameless; modeA]
  = (Return (ControlManager.mk None [modeA] [addObject (PyStr "A") 1]),
     [Log ERROR (NoDisplayName "Nameless")])
  /\ existsb is_default [addObject (PyStr "A") 1] = false
  /\ control_mode_changed (Some 1)
       (ControlManager.mk None [modeA] [addObject (PyStr "A") 1])
     = mkResult (Return tt)
         (ControlManager.mk None [modeA] [addObject (PyStr "A") 1])
         [Log ERROR (InvalidControlMode 1)].
Proof. repeat split. Qed.

(** C7.  Whatever is given, a returned manager has a registry in
    descending order of [_SORT] in which the interfaces of one priority stand
    in the order they were given; it is a rearrangement of the given
    interfaces that passed the display-name check.  The constructor raises
    only when nothing is given.  For the priorities 3, 1, 3, 0 the registry
    is [mode0; mode2; mode1; mode3]. *)
Theorem init_registry_sorted_stable :
  (forall interfaces : list ControlInterface.t,
      match fst (__init__ interfaces) with
      | Return cm =>
          StronglySorted
            (fun a b => ControlInterface._SORT b <= ControlInterface._SORT a)
            (control_interfaces cm)
          /\ (forall k : Z,
                 filter (fun m => ControlInterface._SORT m =? k)
                   (control_interfaces cm)
                 = filter (fun m => ControlInterface._SORT m =? k)
                     (filter accepted interfaces))
          /\ Permutation (control_interfaces cm) (filter accepted interfaces)
      | Raise _ => interfaces = []
      end)
  /\ fst (__init__ [mode0; mode1; mode2; mode3])
     = Return (ControlManager.mk None [mode0; mode2; mode1; mode3]
                 [addDefault (PyStr "m0") 0; addObject (PyStr "m2") 1;
                  addObject (PyStr "m1") 2; addObject (PyStr "m3") 3]).
Proof.
  split; [|reflexivity].
  intros interfaces. rewrite init_spec.
  destruct interfaces as [|m0 l]; [reflexivity|].
  cbv zeta. simpl fst. simpl control_interfaces.
  set (given := m0 :: l).
  split; [|split].
  - apply StronglySorted_filter, sorted_reverse_descending.
  - intros k.
    rewrite (filter_filter_comm _ accepted
               (sorted_reverse ControlInterface._SORT given)).
    rewrite (sorted_reverse_stable ControlInterface._SORT k given).
    apply filter_filter_comm.
  - clearbody given. clear m0 l.
    assert (Hp := sorted_reverse_perm ControlInterface._SORT given).
    revert Hp. generalize (sorted_reverse ControlInterface._SORT given).
    intros l' Hp. induction Hp; simpl.
    + constructor.
    + destruct (accepted x); [now constructor | assumption].
    + destruct (accepted x), (accepted y); try apply Permutation_refl.
      apply perm_swap.
    + eapply Permutation_trans; eassumption.
Qed.

(** ** The selection callback and the tick *)

(** C2.  The identifier handed to the callback is what the chooser
    answers, one of the values the constructor entered, which are positions
    counted from 0.  For every manager and every such identifier that is the
    position of no registered interface, the callback logs exactly one error
    ("Invalid control mode"), calls no hook, leaves the active mode and the
    rest of the state unchanged, and returns normally. *)
Theorem selection_unregistered_logged (s : ControlManager.t) (i : Z)
        (Hid : 0 <= i)
        (Hnone : nth_error (control_interfaces s) (Z.to_nat i) = None) :
  control_mode_changed (Some i) s
  = mkResult (Return tt) s [Log ERROR (InvalidControlMode i)].
Proof.
  rewrite control_mode_changed_spec.
  apply nth_error_None in Hnone.
  replace (Z.of_nat (length (control_interfaces s)) <=? i) with true;
    [reflexivity|].
  symmetry. apply Z.leb_le. lia.
Qed.

Lemma selection_unregistered_logged_witness :
  0 <= 2
  /\ nth_error [modeA; modeB] (Z.to_nat 2) = None
  /\ control_mode_changed (Some 2)
       (ControlManager.mk (Some modeA) [modeA; modeB]
          [addDefault (PyStr "A") 0; addObject (PyStr "B") 1])
     = mkResult (Return tt)
         (ControlManager.mk (Some modeA) [modeA; modeB]
            [addDefault (PyStr "A") 0; addObject (PyStr "B") 1])
         [Log ERROR (InvalidControlMode 2)].
Proof.
  split; [lia|]. split; [reflexivity|].
  apply (selection_unregistered_logged
           (ControlManager.mk (Some modeA) [modeA; modeB]
              [addDefault (PyStr "A") 0; addObject (PyStr "B") 1]) 2).
  - lia.
  - reflexivity.
Defined.

(** An identifier that is the position of a registered interface is never
    answered with the error: the two cases exclude each other. *)
Lemma selection_registered_not_logged (s : ControlManager.t) (i : Z)
      (m : ControlInterface.t) :
  0 <= i ->
  nth_error (control_interfaces s) (Z.to_nat i) = Some m ->
  control_mode_changed (Some i) s = switch_to m s.
Proof.
  intros Hid Hm.
  assert (Hlt : (Z.to_nat i < length (control_interfaces s))%nat)
    by (apply nth_error_Some; congruence).
  rewrite control_mode_changed_spec.
  replace (Z.of_nat (length (control_interfaces s)) <=? i) with false
    by (symmetry; apply Z.leb_gt; lia).
  destruct (getitem_in_range (control_interfaces s) i) as [m' [Hm' Hget]];
    [lia|].
  rewrite Hget. congruence.
Qed.

(** Negative numbers, which the constructor enters for no interface, pass
    the guard: with two registered interfaces, -1 selects the last one and
    -3 raises IndexError. *)
Example selection_negative_examples :
  let s := ControlManager.mk None [modeA; modeB]
             [addDefault (PyStr "A") 0; addObject (PyStr "B") 1] in
  getitem (control_interfaces s) (-3) = Raise IndexError
  /\ control_mode_changed (Some (-3)) s = mkResult (Raise IndexError) s []
  /\ control_mode_changed (Some (-1)) s
     = mkResult (Return tt)
         (ControlManager.mk (Some modeB) [modeA; modeB]
            [addDefault (PyStr "A") 0; addObject (PyStr "B") 1])
         [Call modeB Henabled].
Proof. repeat split. Qed.

(** C5.  Let the selection resolve to the registered interface B.
    If A is active, is not B, and its [disabled] returns, the callback
    calls A's [disabled], then B's [enabled], and nothing else; B is the
    active mode afterwards, also when B's [enabled] raises, since the pointer
    is set before that call.  If A's [disabled] raises, nothing more happens:
    A stays active and B's [enabled] is not called.  If no mode is active,
    only B's [enabled] is called.  The registry is never touched, and a tick
    that follows the switch calls B's [teleopPeriodic] and nothing else. *)
Theorem selection_switches_cleanly (s : ControlManager.t) (i : Z)
        (B : ControlInterface.t)
        (Hsel : getitem (control_interfaces s) i = Return B) :
  let r := control_mode_changed (Some i) s in
  let switched :=
    ControlManager.mk (Some B) (control_interfaces s) (control_chooser s) in
  (forall A,
      control_mode s = Some A ->
      ControlInterface.same A B = false ->
      ControlInterface.disabled A = Return tt ->
      r = mkResult (ControlInterface.enabled B) switched
            [Call A Hdisabled; Call B Henabled])
  /\ (forall A e,
         control_mode s = Some A ->
         ControlInterface.same A B = false ->
         ControlInterface.disabled A = Raise e ->
         r = mkResult (Raise e) s [Call A Hdisabled])
  /\ (control_mode s = None ->
      r = mkResult (ControlInterface.enabled B) switched [Call B Henabled])
  /\ teleopPeriodic switched
     = mkResult (ControlInterface.teleopPeriodic B) switched
         [Call B HteleopPeriodic].
Proof.
  cbv zeta. rewrite control_mode_changed_spec.
  destruct (getitem_inv _ _ _ Hsel) as [[_ Hlt] _].
  apply Z.leb_gt in Hlt. rewrite Hlt, Hsel. unfold switch_to.
  split; [|split; [|split]].
  - intros A HA Hne Hd. now rewrite HA, Hne, Hd.
  - intros A e HA Hne Hd. now rewrite HA, Hne, Hd.
  - intros HN. now rewrite HN.
  - now rewrite teleopPeriodic_spec.
Qed.

Lemma selection_switches_cleanly_witness :
  getitem [modeA; modeB] 1 = Return modeB
  /\ control_mode_changed (Some 1)
       (ControlManager.mk (Some modeA) [modeA; modeB] [])
     = mkResult (Return tt)
         (ControlManager.mk (Some modeB) [modeA; modeB] [])
         [Call modeA Hdisabled; Call modeB Henabled].
Proof.
  split; [reflexivity|].
  exact (proj1 (selection_switches_cleanly
                  (ControlManager.mk (Some modeA) [modeA; modeB] []) 1 modeB
                  eq_refl)
           modeA eq_refl eq_refl eq_refl).
Defined.

(** The pointer is set before [enabled] is called: when that hook raises,
    the exception reaches the caller and the new mode is the active one. *)
Example enabled_raising_keeps_new_mode :
  control_mode_changed (Some 1)
    (ControlManager.mk (Some modeA) [modeA; faulty] [])
  = mkResult (Raise (HookError "enabled"))
      (ControlManager.mk (Some faulty) [modeA; faulty] [])
      [Call modeA Hdisabled; Call faulty Henabled].
Proof. reflexivity. Qed.

(** C6.  If A is active, any sequence of selections that each resolve to
    A leaves the manager exactly as it was and calls nothing: no [disabled],
    no [enabled], no log line. *)
Theorem reselection_is_noop (s : ControlManager.t) (A : ControlInterface.t)
        (ids : list Z)
        (Hactive : control_mode s = Some A)
        (Hids : Forall (fun i => exists B,
                            getitem (control_interfaces s) i = Return B
                            /\ ControlInterface.same A B = true) ids) :
  run_ops (map (fun i => Selection (Some i)) ids) s = (s, []).
Proof.
  induction Hids as [|i ids [B [Hsel Hsame]] _ IH]; [reflexivity|].
  cbn [map run_ops run_op].
  rewrite control_mode_changed_spec.
  destruct (getitem_inv _ _ _ Hsel) as [[_ Hlt] _].
  apply Z.leb_gt in Hlt. rewrite Hlt, Hsel. unfold switch_to.
  rewrite Hactive, Hsame. simpl. now rewrite IH.
Qed.

Lemma reselection_is_noop_witness :
  let s := ControlManager.mk (Some modeA) [modeA; modeB] [] in
  control_mode s = Some modeA
  /\ Forall (fun i => exists B,
                 getitem (control_interfaces s) i = Return B
                 /\ ControlInterface.same modeA B = true) [0; 0; -2; 0]
  /\ run_ops (map (fun i => Selection (Some i)) [0; 0; -2; 0]) s = (s, []).
Proof.
  assert (Hids : Forall (fun i => exists B,
                     getitem [modeA; modeB] i = Return B
                     /\ ControlInterface.same modeA B = true) [0; 0; -2; 0])
    by (repeat constructor; exists modeA; split; reflexivity).
  split; [reflexivity|]. split; [exact Hids|].
  exact (reselection_is_noop
           (ControlManager.mk (Some modeA) [modeA; modeB] []) modeA
           [0; 0; -2; 0] eq_refl Hids).
Defined.

(** C8.  With no active mode the tick does nothing: it returns, calls no
    hook and leaves the manager as it is.  This is the situation right after
    every construction that returns. *)
Theorem tick_without_mode_is_noop :
  (forall s : ControlManager.t,
      control_mode s = None -> teleopPeriodic s = mkResult (Return tt) s [])
  /\ (forall interfaces cm log,
         __init__ interfaces = (Return cm, log) ->
         control_mode cm = None
         /\ teleopPeriodic cm = mkResult (Return tt) cm []).
Proof.
  assert (Hnone : forall s : ControlManager.t,
             control_mode s = None ->
             teleopPeriodic s = mkResult (Return tt) s []).
  { intros s Hs. rewrite teleopPeriodic_spec. now rewrite Hs. }
  split; [exact Hnone|].
  intros interfaces cm log Hinit.
  rewrite init_spec in Hinit.
  destruct interfaces as [|m l]; [discriminate|].
  cbv zeta in Hinit. injection Hinit as <- <-.
  split; [reflexivity|]. now apply Hnone.
Qed.

Lemma tick_without_mode_is_noop_witness :
  __init__ [modeA; modeB]
  = (Return (ControlManager.mk None [modeA; modeB]
               [addDefault (PyStr "A") 0; addObject (PyStr "B") 1]), [])
  /\ teleopPeriodic
       (ControlManager.mk None [modeA; modeB]
          [addDefault (PyStr "A") 0; addObject (PyStr "B") 1])
     = mkResult (Return tt)
         (ControlManager.mk None [modeA; modeB]
            [addDefault (PyStr "A") 0; addObject (PyStr "B") 1]) [].
Proof.
  split; [reflexivity|].
  exact (proj2 (proj2 tick_without_mode_is_noop [modeA; modeB] _ _ eq_refl)).
Defined.

(** C9.  Start from any manager the constructor returns and make any
    sequence of selection callbacks and ticks, whether they return or raise.
    The registry is the one built at construction; the active pointer is
    either none or one of the registered interfaces; and if a mode is active
    at that point, a mode is active after any further sequence of calls. *)
Theorem active_mode_registered_and_kept
        (interfaces : list ControlInterface.t) (cm : ControlManager.t)
        (log : list event) (ops : list op)
        (Hinit : __init__ interfaces = (Return cm, log)) :
  let s := fst (run_ops ops cm) in
  control_interfaces s = control_interfaces cm
  /\ (control_mode s = None
      \/ exists m, control_mode s = Some m /\ In m (control_interfaces cm))
  /\ (forall more : list op,
         control_mode s <> None ->
         control_mode (fst (run_ops more s)) <> None).
Proof.
  cbv zeta.
  assert (Hstart : active_registered cm).
  { rewrite init_spec in Hinit.
    destruct interfaces as [|m l]; [discriminate|].
    cbv zeta in Hinit. injection Hinit as <- <-. exact I. }
  destruct (run_ops_invariant ops cm) as [Hr [Ha _]].
  split; [exact Hr|]. split.
  - specialize (Ha Hstart). unfold active_registered in Ha.
    destruct (control_mode (fst (run_ops ops cm))) as [m|]; [|now left].
    right. exists m. split; [reflexivity|]. now rewrite <- Hr.
  - intros more. apply run_ops_invariant.
Qed.

Lemma active_mode_registered_and_kept_witness :
  __init__ [modeA; modeB]
  = (Return (ControlManager.mk None [modeA; modeB]
               [addDefault (PyStr "A") 0; addObject (PyStr "B") 1]), [])
  /\ forall more : list op,
       control_mode
         (fst (run_ops [Tick; Selection (Some 1); Selection (Some 7)]
                 (ControlManager.mk None [modeA; modeB]
                    [addDefault (PyStr "A") 0; addObject (PyStr "B") 1])))
       <> None ->
       control_mode
         (fst (run_ops more
                 (fst (run_ops [Tick; Selection (Some 1); Selection (Some 7)]
                         (ControlManager.mk None [modeA; modeB]
                            [addDefault (PyStr "A") 0;
                             addObject (PyStr "B") 1])))))
       <> None.
Proof.
  split; [reflexivity|].
  exact (proj2 (proj2
           (active_mode_registered_and_kept [modeA; modeB] _ []
              [Tick; Selection (Some 1); Selection (Some 7)] eq_refl))).
Defined.

(** C10.  The callback tests the selection against the length of the
    registry only.  For a negative identifier it never logs.  When the
    identifier is at least minus the length n of the registry, the interface
    B at position n + id is the one selected and the call does what the call
    with the identifier n + id does, hook by hook: with no active mode it
    calls B's [enabled] and B is active; with B itself active it calls
    nothing; with another mode A active it calls A's [disabled] and then B's
    [enabled], and B is active, unless A's [disabled] raises, in which case
    that is the only call and A stays active.  When the identifier is below
    minus n, IndexError reaches the caller, nothing was called and nothing
    has changed. *)
Theorem selection_negative_unguarded (s : ControlManager.t) (i : Z)
        (Hneg : i < 0) :
  let n := Z.of_nat (length (control_interfaces s)) in
  let r := control_mode_changed (Some i) s in
  filter is_log (trace r) = []
  /\ (- n <= i ->
      r = control_mode_changed (Some (n + i)) s
      /\ exists B,
           nth_error (control_interfaces s) (Z.to_nat (n + i)) = Some B
           /\ getitem (control_interfaces s) i = Return B
           /\ (match control_mode s with
               | None => True
               | Some A =>
                   ControlInterface.same A B = true
                   \/ ControlInterface.disabled A = Return tt
               end ->
               exists m,
                 control_mode (self r) = Some m
                 /\ ControlInterface.same m B = true)
           /\ (control_mode s = None ->
               r = mkResult (ControlInterface.enabled B)
                     (ControlManager.mk (Some B) (control_interfaces s)
                        (control_chooser s))
                     [Call B Henabled])
           /\ (forall A,
                  control_mode s = Some A ->
                  ControlInterface.same A B = true ->
                  r = mkResult (Return tt) s [])
           /\ (forall A,
                  control_mode s = Some A ->
                  ControlInterface.same A B = false ->
                  ControlInterface.disabled A = Return tt ->
                  r = mkResult (ControlInterface.enabled B)
                        (ControlManager.mk (Some B) (control_interfaces s)
                           (control_chooser s))
                        [Call A Hdisabled; Call B Henabled])
           /\ (forall A e,
                  control_mode s = Some A ->
                  ControlInterface.same A B = false ->
                  ControlInterface.disabled A = Raise e ->
                  r = mkResult (Raise e) s [Call A Hdisabled]))
  /\ (i < - n -> r = mkResult (Raise IndexError) s []).
Proof.
  cbv zeta.
  set (n := Z.of_nat (length (control_interfaces s))).
  assert (Hguard : (n <=? i) = false) by (apply Z.leb_gt; lia).
  rewrite control_mode_changed_spec. fold n. rewrite Hguard.
  split; [|split].
  - destruct (getitem (control_interfaces s) i) as [B|e]; [|reflexivity].
    unfold switch_to.
    destruct (control_mode s) as [A|]; [|reflexivity].
    destruct (ControlInterface.same A B); [reflexivity|].
    destruct (ControlInterface.disabled A); reflexivity.
  - intros Hlow.
    rewrite control_mode_changed_spec. fold n.
    replace (n <=? n + i) with false by (symmetry; apply Z.leb_gt; lia).
    rewrite (getitem_negative (control_interfaces s) i) by (fold n; lia).
    fold n. split; [reflexivity|].
    destruct (getitem_in_range (control_interfaces s) (n + i)) as [B [Hn HB]];
      [fold n; lia|].
    exists B. rewrite HB. split; [exact Hn|]. split; [reflexivity|].
    unfold switch_to.
    split; [|split; [|split; [|split]]].
    + destruct (control_mode s) as [A|] eqn:Hcm.
      * destruct (ControlInterface.same A B) eqn:Hsame.
        -- intros _. exists A. simpl. now split.
        -- intros [Hs|Hd]; [discriminate|]. rewrite Hd. simpl.
           exists B. split; [reflexivity|]. apply Nat.eqb_refl.
      * intros _. exists B. split; [reflexivity|]. apply Nat.eqb_refl.
    + intros Hnone. now rewrite Hnone.
    + intros A HA Hsame. now rewrite HA, Hsame.
    + intros A HA Hsame Hd. now rewrite HA, Hsame, Hd.
    + intros A e HA Hsame Hd. now rewrite HA, Hsame, Hd.
  - intros Hbelow.
    now rewrite (getitem_below (control_interfaces s) i) by (fold n; lia).
Qed.

Lemma selection_negative_unguarded_witness :
  -1 < 0
  /\ - Z.of_nat (length [modeA; modeB]) <= -1
  /\ control_mode_changed (Some (-1))
       (ControlManager.mk (Some modeA) [modeA; modeB] [])
     = control_mode_changed (Some (2 + -1))
         (ControlManager.mk (Some modeA) [modeA; modeB] [])
  /\ exists B,
       nth_error [modeA; modeB] (Z.to_nat (2 + -1)) = Some B
       /\ control_mode_changed (Some (-1))
            (ControlManager.mk (Some modeA) [modeA; modeB] [])
          = mkResult (ControlInterface.enabled B)
              (ControlManager.mk (Some B) [modeA; modeB] [])
              [Call modeA Hdisabled; Call B Henabled].
Proof.
  assert (Hneg : -1 < 0) by lia.
  assert (Hlow : - Z.of_nat (length [modeA; modeB]) <= -1) by (simpl; lia).
  split; [exact Hneg|]. split; [exact Hlow|].
  destruct (proj1 (proj2
              (selection_negative_unguarded
                 (ControlManager.mk (Some modeA) [modeA; modeB] []) (-1)
                 Hneg)) Hlow)
    as [Heq [B [Hn [_ [_ [_ [_ [Hswitch _]]]]]]]].
  split; [exact Heq|].
  exists B. split; [exact Hn|].
  apply (Hswitch modeA); [reflexivity | | reflexivity].
  simpl in Hn. injection Hn as <-. reflexivity.
Defined.

(** * Further properties of the manager *)

(** ** The chooser against the registry *)

Lemma registrations_names (i : nat) (l : list ControlInterface.t) :
  map (fun c => Some (chooser_name c)) (registrations i l)
  = map ControlInterface._DISPLAY_NAME (filter accepted l).
Proof.
  revert i. induction l as [|m l IH]; intros i; [reflexivity|].
  unfold accepted at 1. simpl.
  destruct (ControlInterface._DISPLAY_NAME m) as [[s|n|]|] eqn:Hname; simpl;
    rewrite ?IH, ?Hname; try reflexivity.
  destruct (Nat.eqb i 0); reflexivity.
Qed.

Lemma registrations_lookup (l : list ControlInterface.t) :
  forall (i k : nat) (c : chooser_call),
    nth_error (registrations i l) k = Some c ->
    (i <= chooser_value c)%nat
    /\ nth_error l (chooser_value c - i) = nth_error (filter accepted l) k
    /\ is_default c = Nat.eqb (chooser_value c) 0.
Proof.
  induction l as [|m l IH]; intros i k c Hk.
  - destruct k; discriminate.
  - assert (Hstep : forall k', nth_error (registrations (S i) l) k' = Some c ->
                    (i <= chooser_value c)%nat
                    /\ nth_error (m :: l) (chooser_value c - i)
                       = nth_error (filter accepted l) k'
                    /\ is_default c = Nat.eqb (chooser_value c) 0).
    { intros k' Hk'. destruct (IH _ _ _ Hk') as [Hle [Hnth Hdef]].
      split; [lia|]. split; [|exact Hdef].
      replace (chooser_value c - i)%nat with (S (chooser_value c - S i))
        by lia.
      exact Hnth. }
    simpl in Hk. simpl filter. unfold accepted at 1.
    destruct (ControlInterface._DISPLAY_NAME m) as [[s|n|]|]; simpl;
      try (now apply Hstep).
    destruct k as [|k]; simpl in Hk.
    + injection Hk as <-.
      destruct (Nat.eqb i 0) eqn:Hi; simpl; rewrite Nat.sub_diag;
        (split; [lia|]); (split; [reflexivity|]).
      * apply Nat.eqb_eq in Hi. subst. reflexivity.
      * now rewrite Hi.
    + now apply Hstep.
Qed.

Lemma registrations_position (l : list ControlInterface.t) :
  forall (i k : nat) (c : chooser_call),
    nth_error (registrations i l) k = Some c ->
    (i + k <= chooser_value c)%nat.
Proof.
  induction l as [|m l IH]; intros i k c Hk.
  - destruct k; discriminate.
  - simpl in Hk.
    destruct (ControlInterface._DISPLAY_NAME m) as [[s|n|]|];
      try (specialize (IH _ _ _ Hk); lia).
    destruct k as [|k]; simpl in Hk.
    + injection Hk as <-. destruct (Nat.eqb i 0); simpl; lia.
    + specialize (IH _ _ _ Hk). lia.
Qed.

Lemma registrations_increasing (l : list ControlInterface.t) :
  forall i : nat,
    StronglySorted lt (map chooser_value (registrations i l))
    /\ Forall (fun v => (i <= v)%nat) (map chooser_value (registrations i l)).
Proof.
  induction l as [|m l IH]; intros i; simpl.
  - split; constructor.
  - destruct (IH (S i)) as [Hs Hf].
    assert (Hweak : Forall (fun v => (i <= v)%nat)
                      (map chooser_value (registrations (S i) l))).
    { eapply Forall_impl; [|exact Hf]. simpl. intros; lia. }
    destruct (ControlInterface._DISPLAY_NAME m) as [[s|n|]|];
      try (split; assumption).
    assert (Hv : chooser_value
                   (if Nat.eqb i 0 then addDefault (PyStr s) i
                    else addObject (PyStr s) i) = i)
      by (destruct (Nat.eqb i 0); reflexivity).
    simpl map. rewrite Hv. split.
    + constructor; [exact Hs|].
      eapply Forall_impl; [|exact Hf]. simpl. intros; lia.
    + constructor; [lia | exact Hweak].
Qed.

Lemma registrations_all_accepted (l : list ControlInterface.t) :
  Forall (fun m => accepted m = true) l ->
  forall (i k : nat) (c : chooser_call),
    nth_error (registrations i l) k = Some c -> chooser_value c = (i + k)%nat.
Proof.
  induction 1 as [|m l Hm _ IH]; intros i k c Hk.
  - destruct k; discriminate.
  - unfold accepted in Hm. simpl in Hk.
    destruct (ControlInterface._DISPLAY_NAME m) as [[s|n|]|];
      try discriminate.
    destruct k as [|k]; simpl in Hk.
    + injection Hk as <-. destruct (Nat.eqb i 0); simpl; lia.
    + rewrite (IH _ _ _ Hk). lia.
Qed.

Lemma filter_all {A : Type} (p : A -> bool) (l : list A) :
  Forall (fun a => p a = true) l -> filter p l = l.
Proof.
  induction 1 as [|x l Hx _ IH]; simpl; [reflexivity|].
  now rewrite Hx, IH.
Qed.

(** What the constructor leaves, for the proofs below. *)
Lemma chooser_entries_follow_registry_aux
      (interfaces : list ControlInterface.t) (cm : ControlManager.t)
      (log : list event) :
  __init__ interfaces = (Return cm, log) ->
  map (fun c => Some (chooser_name c)) (control_chooser cm)
  = map ControlInterface._DISPLAY_NAME (control_interfaces cm)
  /\ control_mode cm = None
  /\ control_interfaces cm
     = filter accepted (sorted_reverse ControlInterface._SORT interfaces)
  /\ control_chooser cm
     = registrations 0 (sorted_reverse ControlInterface._SORT interfaces).
Proof.
  intros Hinit. rewrite init_spec in Hinit.
  destruct interfaces as [|m0 l]; [discriminate|].
  cbv zeta in Hinit. injection Hinit as <- <-.
  simpl. split; [apply registrations_names|]. now repeat split.
Qed.

(** X1.  A constructor that returns has made exactly one [addDefault] or
    [addObject] call on the chooser for each registered interface, in the
    order of the registry and with that interface's display name as the
    name; every given interface was either registered or complained about in
    the log, once. *)
Theorem chooser_entries_follow_registry
        (interfaces : list ControlInterface.t) (cm : ControlManager.t)
        (log : list event)
        (Hinit : __init__ interfaces = (Return cm, log)) :
  map (fun c => Some (chooser_name c)) (control_chooser cm)
  = map ControlInterface._DISPLAY_NAME (control_interfaces cm)
  /\ length (control_chooser cm) = length (control_interfaces cm)
  /\ (length (control_interfaces cm) + length log = length interfaces)%nat.
Proof.
  rewrite init_spec in Hinit.
  destruct interfaces as [|m0 l]; [discriminate|].
  cbv zeta in Hinit. injection Hinit as <- <-.
  simpl control_chooser. simpl control_interfaces.
  set (tuple := sorted_reverse ControlInterface._SORT (m0 :: l)).
  assert (Hnames := registrations_names 0 tuple).
  split; [exact Hnames|]. split.
  - apply (f_equal (@length _)) in Hnames.
    now rewrite !length_map in Hnames.
  - rewrite complaints_length.
    rewrite <- (Permutation_length
                  (sorted_reverse_perm ControlInterface._SORT (m0 :: l))).
    fold tuple. clear Hnames. clearbody tuple.
    induction tuple as [|x t IH]; simpl; [reflexivity|].
    destruct (accepted x); simpl; lia.
Qed.

Lemma chooser_entries_follow_registry_witness :
  __init__ [modeA; nameless; modeB]
  = (Return (ControlManager.mk None [modeA; modeB]
               [addDefault (PyStr "A") 0; addObject (PyStr "B") 2]),
     [Log ERROR (NoDisplayName "Nameless")])
  /\ (length [modeA; modeB] + length [Log ERROR (NoDisplayName "Nameless")]
      = length [modeA; nameless; modeB])%nat.
Proof.
  split; [reflexivity|].
  exact (proj2 (proj2
           (chooser_entries_follow_registry [modeA; nameless; modeB]
              (ControlManager.mk None [modeA; modeB]
                 [addDefault (PyStr "A") 0; addObject (PyStr "B") 2])
              [Log ERROR (NoDisplayName "Nameless")] eq_refl))).
Defined.

(** X2.  The value the constructor passes in a call on the chooser is the
    position of the interface in the sorted tuple of everything that was
    given, rejected interfaces included: the value of the k-th call leads, in
    that tuple, to the k-th interface of the registry, and is at least k.
    The values grow strictly from call to call, and a call is [addDefault]
    exactly when its value is 0. *)
Theorem chooser_values_are_tuple_positions
        (interfaces : list ControlInterface.t) (cm : ControlManager.t)
        (log : list event)
        (Hinit : __init__ interfaces = (Return cm, log)) :
  (forall (k : nat) (c : chooser_call),
      nth_error (control_chooser cm) k = Some c ->
      nth_error (sorted_reverse ControlInterface._SORT interfaces)
        (chooser_value c)
      = nth_error (control_interfaces cm) k
      /\ (k <= chooser_value c)%nat
      /\ is_default c = Nat.eqb (chooser_value c) 0)
  /\ StronglySorted lt (map chooser_value (control_chooser cm)).
Proof.
  rewrite init_spec in Hinit.
  destruct interfaces as [|m0 l]; [discriminate|].
  cbv zeta in Hinit. injection Hinit as <- <-.
  simpl control_chooser. simpl control_interfaces.
  set (tuple := sorted_reverse ControlInterface._SORT (m0 :: l)).
  split; [|apply registrations_increasing].
  intros k c Hk.
  destruct (registrations_lookup tuple 0 k c Hk) as [_ [Hnth Hdef]].
  rewrite Nat.sub_0_r in Hnth.
  split; [exact Hnth|]. split; [|exact Hdef].
  apply (registrations_position tuple 0 k c Hk).
Qed.

Lemma chooser_values_are_tuple_positions_witness :
  __init__ [nameless; modeA; modeB]
  = (Return (ControlManager.mk None [modeA; modeB]
               [addObject (PyStr "A") 1; addObject (PyStr "B") 2]),
     [Log ERROR (NoDisplayName "Nameless")])
  /\ StronglySorted lt
       (map chooser_value [addObject (PyStr "A") 1; addObject (PyStr "B") 2]).
Proof.
  split; [reflexivity|].
  exact (proj2
           (chooser_values_are_tuple_positions [nameless; modeA; modeB]
              (ControlManager.mk None [modeA; modeB]
                 [addObject (PyStr "A") 1; addObject (PyStr "B") 2])
              [Log ERROR (NoDisplayName "Nameless")] eq_refl)).
Defined.

(** X3.  When every given interface has a string display name, the values
    passed to the chooser are registry positions: the k-th call on the
    chooser passes the value k and the display name of the k-th registered
    interface, and when that value is what [getSelected()] answers to the
    callback of the freshly built manager, that interface is enabled and
    becomes the active mode. *)
Theorem chooser_value_selects_its_interface
        (interfaces : list ControlInterface.t) (cm : ControlManager.t)
        (log : list event) (k : nat) (c : chooser_call)
        (Hinit : __init__ interfaces = (Return cm, log))
        (Hall : Forall (fun m => accepted m = true) interfaces)
        (Hentry : nth_error (control_chooser cm) k = Some c) :
  chooser_value c = k
  /\ exists m,
       nth_error (control_interfaces cm) k = Some m
       /\ ControlInterface._DISPLAY_NAME m = Some (chooser_name c)
       /\ control_mode_changed (Some (Z.of_nat (chooser_value c))) cm
          = mkResult (ControlInterface.enabled m)
              (ControlManager.mk (Some m) (control_interfaces cm)
                 (control_chooser cm))
              [Call m Henabled].
Proof.
  destruct (chooser_entries_follow_registry_aux interfaces cm log Hinit)
    as [Hnames [Hmode [Hreg Hch]]].
  assert (Htuple : Forall (fun m => accepted m = true)
                     (sorted_reverse ControlInterface._SORT interfaces)).
  { eapply Permutation_Forall; [|exact Hall].
    symmetry. apply sorted_reverse_perm. }
  rewrite Hch in Hentry.
  assert (Hv : chooser_value c = k)
    by (apply (registrations_all_accepted _ Htuple 0 k c Hentry)).
  split; [exact Hv|]. rewrite Hv.
  rewrite <- Hch in Hentry.
  assert (Hk : nth_error (map (fun c => Some (chooser_name c))
                            (control_chooser cm)) k
               = Some (Some (chooser_name c)))
    by (rewrite nth_error_map, Hentry; reflexivity).
  rewrite Hnames, nth_error_map in Hk.
  destruct (nth_error (control_interfaces cm) k) as [m|] eqn:Hm;
    [|discriminate].
  injection Hk as Hk. exists m. split; [reflexivity|]. split; [exact Hk|].
  assert (Hlt : (k < length (control_interfaces cm))%nat)
    by (apply nth_error_Some; congruence).
  rewrite control_mode_changed_spec.
  replace (Z.of_nat (length (control_interfaces cm)) <=? Z.of_nat k)
    with false by (symmetry; apply Z.leb_gt; lia).
  destruct (getitem_in_range (control_interfaces cm) (Z.of_nat k))
    as [m' [Hm' Hget]]; [lia|].
  rewrite Nat2Z.id, Hm in Hm'. injection Hm' as <-.
  rewrite Hget. unfold switch_to. now rewrite Hmode.
Qed.

Lemma chooser_value_selects_its_interface_witness :
  __init__ [mode0; mode1; mode2; mode3]
  = (Return (ControlManager.mk None [mode0; mode2; mode1; mode3]
               [addDefault (PyStr "m0") 0; addObject (PyStr "m2") 1;
                addObject (PyStr "m1") 2; addObject (PyStr "m3") 3]), [])
  /\ Forall (fun m => accepted m = true) [mode0; mode1; mode2; mode3]
  /\ chooser_value (addObject (PyStr "m1") 2) = 2%nat.
Proof.
  assert (Hall : Forall (fun m => accepted m = true)
                   [mode0; mode1; mode2; mode3])
    by (repeat constructor).
  split; [reflexivity|]. split; [exact Hall|].
  exact (proj1
           (chooser_value_selects_its_interface [mode0; mode1; mode2; mode3]
              (ControlManager.mk None [mode0; mode2; mode1; mode3]
                 [addDefault (PyStr "m0") 0; addObject (PyStr "m2") 1;
                  addObject (PyStr "m1") 2; addObject (PyStr "m3") 3])
              [] 2 (addObject (PyStr "m1") 2) eq_refl Hall eq_refl)).
Defined.

(** ** Inputs that are already in order *)

Lemma sorted_ascending_id {A : Type} (key : A -> Z) (l : list A) :
  StronglySorted (fun a b => key a <= key b) l -> sorted key l = l.
Proof.
  induction 1 as [|x l Hs IH Hx]; [reflexivity|].
  simpl. rewrite IH. destruct l as [|y l]; [reflexivity|].
  simpl. inversion Hx; subst.
  replace (key y <? key x) with false; [reflexivity|].
  symmetry. apply Z.ltb_ge. assumption.
Qed.

Lemma sorted_reverse_descending_id {A : Type} (key : A -> Z) (l : list A) :
  StronglySorted (fun a b => key b <= key a) l -> sorted_reverse key l = l.
Proof.
  intros Hs. unfold sorted_reverse.
  rewrite sorted_ascending_id; [apply rev_involutive|].
  apply (StronglySorted_rev (fun a b => key b <= key a)). exact Hs.
Qed.

(** X4.  Interfaces given in descending order of [_SORT] (equal priorities
    allowed) are registered in the order they were given: the registry is the
    input without the rejected interfaces. *)
Theorem init_keeps_descending_input
        (interfaces : list ControlInterface.t)
        (Hne : interfaces <> [])
        (Hdesc : StronglySorted
                   (fun a b => ControlInterface._SORT b <= ControlInterface._SORT a)
                   interfaces) :
  __init__ interfaces
  = (Return (ControlManager.mk None (filter accepted interfaces)
               (registrations 0 interfaces)),
     complaints interfaces).
Proof.
  rewrite init_spec.
  destruct interfaces as [|m l]; [contradiction|].
  cbv zeta. now rewrite (sorted_reverse_descending_id _ _ Hdesc).
Qed.

Lemma init_keeps_descending_input_witness :
  [mode0; mode2; nameless] <> []
  /\ __init__ [mode0; mode2; nameless]
     = (Return (ControlManager.mk None
                  (filter accepted [mode0; mode2; nameless])
                  (registrations 0 [mode0; mode2; nameless])),
        complaints [mode0; mode2; nameless]).
Proof.
  split; [discriminate|].
  apply init_keeps_descending_input; [discriminate|].
  repeat constructor; simpl; lia.
Defined.

(** ** Repeated and failing notifications *)

Lemma same_refl (m : ControlInterface.t) : ControlInterface.same m m = true.
Proof. apply Nat.eqb_refl. Qed.

(** X5.  Unless a notification ended in the [disabled] hook of the active
    mode raising, the same notification made again changes nothing and calls
    no hook: it leaves the manager as the first call left it, and its trace
    holds at most the error line of an unregistered selection.  No hook runs
    in the second call, so this does not depend on what the hooks would do
    when called again. *)
Theorem selection_repeated_changes_nothing
        (sel : option Z) (s : ControlManager.t)
        (Hfirst : forall m,
            trace (control_mode_changed sel s) <> [Call m Hdisabled]) :
  let first := control_mode_changed sel s in
  let again := control_mode_changed sel (self first) in
  self again = self first
  /\ filter (fun e => negb (is_log e)) (trace again) = []
  /\ (value first = Return tt -> value again = Return tt).
Proof.
  cbv zeta. destruct sel as [i|]; [|repeat split].
  revert Hfirst. rewrite (control_mode_changed_spec i s).
  destruct (Z.of_nat (length (control_interfaces s)) <=? i) eqn:Hguard.
  - intros _. cbn [self value trace].
    rewrite control_mode_changed_spec, Hguard. repeat split.
  - destruct (getitem (control_interfaces s) i) as [target|e] eqn:Hsel.
    + assert (Hdone :
                forall s',
                  control_interfaces s' = control_interfaces s ->
                  control_mode s' = Some target ->
                  control_mode_changed (Some i) s' = mkResult (Return tt) s' []).
      { intros s' Hr Hm. rewrite control_mode_changed_spec, Hr, Hguard, Hsel.
        unfold switch_to. now rewrite Hm, same_refl. }
      unfold switch_to.
      destruct (control_mode s) as [m|] eqn:Hm.
      * destruct (ControlInterface.same m target) eqn:Hsame.
        -- intros _. cbn [self value trace].
           rewrite control_mode_changed_spec, Hguard, Hsel.
           unfold switch_to. rewrite Hm, Hsame. repeat split.
        -- destruct (ControlInterface.disabled m) as [[]|e] eqn:Hd.
           ++ intros _. cbn [self value trace].
              rewrite Hdone by reflexivity. repeat split.
           ++ cbn [trace]. intros Hfirst. now destruct (Hfirst m).
      * intros _. cbn [self value trace].
        rewrite Hdone by reflexivity. repeat split.
    + intros _. cbn [self value trace].
      rewrite control_mode_changed_spec, Hguard, Hsel.
      split; [reflexivity|]. split; [reflexivity | discriminate].
Qed.

Lemma selection_repeated_changes_nothing_witness :
  (forall m,
      trace (control_mode_changed (Some 1)
               (ControlManager.mk (Some modeA) [modeA; faulty] []))
      <> [Call m Hdisabled])
  /\ self (control_mode_changed (Some 1)
             (self (control_mode_changed (Some 1)
                      (ControlManager.mk (Some modeA) [modeA; faulty] []))))
     = ControlManager.mk (Some faulty) [modeA; faulty] [].
Proof.
  assert (Hfirst : forall m,
             trace (control_mode_changed (Some 1)
                      (ControlManager.mk (Some modeA) [modeA; faulty] []))
             <> [Call m Hdisabled])
    by (intros m; discriminate).
  split; [exact Hfirst|].
  exact (proj1 (selection_repeated_changes_nothing (Some 1)
                  (ControlManager.mk (Some modeA) [modeA; faulty] [])
                  Hfirst)).
Defined.

(** X6.  Where the exceptions come from.  When the selection callback
    raises, either a hook it called raised that exception, or the selection
    was below minus the length of the registry, the exception is IndexError
    and nothing was called or changed.  When the tick raises, the
    [teleopPeriodic] of the active mode raised that exception. *)
Theorem exceptions_come_from_hooks_or_index
        (s : ControlManager.t) (e : exn) :
  (forall sel,
      value (control_mode_changed sel s) = Raise e ->
      (exists m h,
          In (Call m h) (trace (control_mode_changed sel s))
          /\ ControlInterface.run h m = Raise e)
      \/ (exists i,
             sel = Some i
             /\ i < - Z.of_nat (length (control_interfaces s))
             /\ e = IndexError
             /\ control_mode_changed sel s = mkResult (Raise IndexError) s []))
  /\ (value (ControlManager.teleopPeriodic s) = Raise e ->
      exists m,
        control_mode s = Some m
        /\ ControlInterface.teleopPeriodic m = Raise e).
Proof.
  split.
  - intros [i|]; [|discriminate].
    rewrite control_mode_changed_spec.
    destruct (Z.of_nat (length (control_interfaces s)) <=? i) eqn:Hguard;
      [discriminate|].
    apply Z.leb_gt in Hguard.
    destruct (getitem (control_interfaces s) i) as [target|e'] eqn:Hsel.
    + unfold switch_to.
      destruct (control_mode s) as [m|].
      * destruct (ControlInterface.same m target); [discriminate|].
        destruct (ControlInterface.disabled m) as [[]|e'] eqn:Hd; simpl.
        -- intros He. left. exists target, Henabled. split; [|exact He].
           right. now left.
        -- intros [= ->]. left. exists m, Hdisabled. split; [|exact Hd].
           now left.
      * simpl. intros He. left. exists target, Henabled.
        split; [now left | exact He].
    + simpl. intros [= ->]. right. exists i.
      assert (Hlow : i < - Z.of_nat (length (control_interfaces s))).
      { destruct (Z_lt_le_dec i (- Z.of_nat (length (control_interfaces s))))
          as [Hlt|Hge]; [exact Hlt|].
        destruct (Z_lt_le_dec i 0) as [Hn|Hp].
        - rewrite getitem_negative in Hsel by lia.
          destruct (getitem_in_range (control_interfaces s)
                      (Z.of_nat (length (control_interfaces s)) + i))
            as [a [_ Ha]]; [lia|]. congruence.
        - destruct (getitem_in_range (control_interfaces s) i)
            as [a [_ Ha]]; [lia|]. congruence. }
      rewrite (getitem_below _ _ Hlow) in Hsel. injection Hsel as <-.
      now repeat split.
  - rewrite teleopPeriodic_spec.
    destruct (control_mode s) as [m|]; [|discriminate].
    simpl. intros He. now exists m.
Qed.

Lemma exceptions_come_from_hooks_or_index_witness :
  value (control_mode_changed (Some 1)
           (ControlManager.mk (Some modeA) [modeA; faulty] []))
  = Raise (HookError "enabled")
  /\ ((exists m h,
          In (Call m h)
            (trace (control_mode_changed (Some 1)
                      (ControlManager.mk (Some modeA) [modeA; faulty] [])))
          /\ ControlInterface.run h m = Raise (HookError "enabled"))
      \/ (exists i,
             Some 1 = Some i
             /\ i < - Z.of_nat (length [modeA; faulty])
             /\ HookError "enabled" = IndexError
             /\ control_mode_changed (Some 1)
                  (ControlManager.mk (Some modeA) [modeA; faulty] [])
                = mkResult (Raise IndexError)
                    (ControlManager.mk (Some modeA) [modeA; faulty] []) [])).
Proof.
  split; [reflexivity|].
  exact (proj1 (exceptions_come_from_hooks_or_index
                  (ControlManager.mk (Some modeA) [modeA; faulty] [])
                  (HookError "enabled"))
           (Some 1) eq_refl).
Defined.

(** ** Sequences of calls *)

Lemma protocol_app (a b c : option ControlInterface.t) (t1 t2 : list event) :
  protocol a t1 b -> protocol b t2 c -> protocol a (t1 ++ t2) c.
Proof.
  induction 1; intros H2; simpl.
  - exact H2.
  - apply protocol_log. auto.
  - apply protocol_tick. auto.
  - apply protocol_first. auto.
  - apply protocol_switch; auto.
  - eapply protocol_stuck; eauto.
Qed.

Lemma run_op_protocol (o : op) (s : ControlManager.t) :
  protocol (control_mode s) (trace (run_op o s))
    (control_mode (self (run_op o s))).
Proof.
  destruct o as [[i|]|]; unfold run_op.
  - rewrite control_mode_changed_spec.
    destruct (Z.of_nat (length (control_interfaces s)) <=? i).
    + cbn [self trace]. apply protocol_log, protocol_done.
    + destruct (getitem (control_interfaces s) i) as [target|e].
      * unfold switch_to.
        destruct (control_mode s) as [m|] eqn:Hm.
        -- destruct (ControlInterface.same m target) eqn:Hsame.
           ++ cbn [self trace]. rewrite Hm. apply protocol_done.
           ++ destruct (ControlInterface.disabled m) as [[]|e] eqn:Hd;
                cbn [self trace control_mode].
              ** apply protocol_switch; [exact Hd | exact Hsame |].
                 apply protocol_done.
              ** rewrite Hm. eapply protocol_stuck; [exact Hd|].
                 apply protocol_done.
        -- cbn [self trace control_mode].
           apply protocol_first, protocol_done.
      * cbn [self trace]. apply protocol_done.
  - simpl. apply protocol_done.
  - rewrite teleopPeriodic_spec.
    destruct (control_mode s) as [m|] eqn:Hm; cbn [self trace]; rewrite Hm.
    + apply protocol_tick, protocol_done.
    + apply protocol_done.
Qed.

(** X7.  The hook calls of any sequence of notifications and ticks, made
    on any manager, follow the protocol: [teleopPeriodic] and [disabled]
    are only ever called on the mode that is active at that moment; [enabled]
    is called on a different interface, either when no mode is active or
    directly after the [disabled] of the active mode has returned; a
    [disabled] that raises is followed by no [enabled] and leaves its mode
    active.  The mode active at the end is the one the trace leads to. *)
Theorem calls_follow_protocol (ops : list op) (s : ControlManager.t) :
  protocol (control_mode s) (snd (run_ops ops s))
    (control_mode (fst (run_ops ops s))).
Proof.
  revert s. induction ops as [|o ops IH]; intros s.
  - apply protocol_done.
  - cbn [run_ops]. specialize (IH (self (run_op o s))).
    destruct (run_ops ops (self (run_op o s))) as [s' tr].
    cbn [fst snd] in *.
    eapply protocol_app; [apply run_op_protocol | exact IH].
Qed.

Lemma run_op_callees (o : op) (s : ControlManager.t) :
  active_registered s ->
  Forall (fun e => forall m, callee e = Some m -> In m (control_interfaces s))
    (trace (run_op o s)).
Proof.
  unfold active_registered. intros Hs.
  assert (Hcall : forall m h, In m (control_interfaces s) ->
                    forall m', callee (Call m h) = Some m' ->
                               In m' (control_interfaces s))
    by (intros m h Hin m' [= <-]; exact Hin).
  destruct o as [[i|]|]; unfold run_op.
  - rewrite control_mode_changed_spec.
    destruct (Z.of_nat (length (control_interfaces s)) <=? i).
    + repeat constructor. discriminate.
    + destruct (getitem (control_interfaces s) i) as [target|e] eqn:Hsel;
        [|constructor].
      apply getitem_In in Hsel. unfold switch_to.
      destruct (control_mode s) as [m|].
      * destruct (ControlInterface.same m target); [constructor|].
        destruct (ControlInterface.disabled m); repeat constructor; eauto.
      * repeat constructor; eauto.
  - constructor.
  - rewrite teleopPeriodic_spec.
    destruct (control_mode s) as [m|]; repeat constructor; eauto.
Qed.

(** X8.  From construction on, through any sequence of notifications and
    ticks, the manager only ever calls hooks of interfaces that were given to
    the constructor and passed its display-name check: an interface it
    rejected is never enabled, disabled or ticked. *)
Theorem hooks_only_on_registered
        (interfaces : list ControlInterface.t) (cm : ControlManager.t)
        (log : list event) (ops : list op)
        (Hinit : __init__ interfaces = (Return cm, log)) :
  Forall (fun e => forall m, callee e = Some m ->
                             In m interfaces /\ accepted m = true)
    (snd (run_ops ops cm)).
Proof.
  destruct (chooser_entries_follow_registry_aux interfaces cm log Hinit)
    as [_ [Hmode [Hreg _]]].
  assert (Hin : forall m, In m (control_interfaces cm) ->
                          In m interfaces /\ accepted m = true).
  { intros m Hm. rewrite Hreg in Hm. apply filter_In in Hm.
    destruct Hm as [Hm Hacc]. split; [|exact Hacc].
    eapply Permutation_in; [apply sorted_reverse_perm | exact Hm]. }
  assert (Hgen : forall s, active_registered s ->
                   Forall (fun e => forall m, callee e = Some m ->
                                              In m (control_interfaces s))
                     (snd (run_ops ops s))).
  { induction ops as [|o ops IH]; intros s Hs; [constructor|].
    cbn [run_ops].
    assert (Hs' := run_op_active_registered o s Hs).
    specialize (IH _ Hs').
    destruct (run_ops ops (self (run_op o s))) as [s' tr]. cbn [snd] in *.
    apply Forall_app. split; [now apply run_op_callees|].
    destruct (run_op_mode o s) as [Hr _]. now rewrite Hr in IH. }
  assert (Hstart : active_registered cm)
    by (unfold active_registered; now rewrite Hmode).
  eapply Forall_impl; [|apply (Hgen cm Hstart)].
  simpl. intros e He m Hm. apply Hin. now apply He.
Qed.

Lemma hooks_only_on_registered_witness :
  __init__ [nameless; modeA; modeB]
  = (Return (ControlManager.mk None [modeA; modeB]
               [addObject (PyStr "A") 1; addObject (PyStr "B") 2]),
     [Log ERROR (NoDisplayName "Nameless")])
  /\ Forall (fun e => forall m, callee e = Some m ->
                                In m [nameless; modeA; modeB]
                                /\ accepted m = true)
       (snd (run_ops [Selection (Some 0); Tick; Selection (Some 1)]
               (ControlManager.mk None [modeA; modeB]
                  [addObject (PyStr "A") 1; addObject (PyStr "B") 2]))).
Proof.
  split; [reflexivity|].
  exact (hooks_only_on_registered [nameless; modeA; modeB] _ _
           [Selection (Some 0); Tick; Selection (Some 1)] eq_refl).
Defined.

(** The protocol does exclude traces: no hook but [enabled] can be the
    first call on a manager without an active mode. *)
Example protocol_needs_active_mode (m : ControlInterface.t)
        (a' : option ControlInterface.t) :
  ~ protocol None [Call m HteleopPeriodic] a'
  /\ ~ protocol None [Call m Hdisabled] a'.
Proof. split; intros H; inversion H. Qed.

(** * The decorators *)

Module RobotFacts.

Import Robot.

(** A closure that finds itself under the name it saved its predecessor
    under calls itself until the frames run out. *)
Lemma robotInitSetup_self (k : klass) :
  __old_robotInit_setup k = Some robotInitSetup ->
  forall (depth : nat) (self : Robot.t),
    invoke depth k robotInitSetup self = (Raised RecursionError, self, []).
Proof.
  intros Hold. induction depth as [|depth IH]; intros self; [reflexivity|].
  simpl. rewrite Hold, IH. reflexivity.
Qed.

Lemma robotInit_self (k : klass) :
  __old_robotInit_ctrlmgnr k = Some robotInit ->
  forall (depth : nat) (self : Robot.t),
    invoke depth k robotInit self = (Raised RecursionError, self, []).
Proof.
  intros Hold. induction depth as [|depth IH]; intros self; [reflexivity|].
  simpl. rewrite Hold, IH. reflexivity.
Qed.

Lemma teleopPeriodic_self (k : klass) :
  __old_teleopPeriodic k = Some Robot.teleopPeriodic ->
  forall (depth : nat) (self : Robot.t),
    fst (fst (invoke depth k Robot.teleopPeriodic self)) <> Returned
    /\ filter is_ran (snd (invoke depth k Robot.teleopPeriodic self)) = [].
Proof.
  intros Hold. induction depth as [|depth IH]; intros self.
  - split; [discriminate | reflexivity].
  - cbn [invoke]. destruct (control_manager self) as [cm|];
      [|split; [discriminate | reflexivity]].
    cbv zeta. rewrite teleopPeriodic_spec.
    assert (Hmap : forall tr, filter is_ran (map Manager tr) = []).
    { induction tr as [|e tr IHtr]; [reflexivity | exact IHtr]. }
    destruct (control_mode cm) as [m|]; cbn [ControlManager.value ControlManager.self ControlManager.trace].
    + destruct (ControlInterface.teleopPeriodic m) as [[]|e];
        [|split; [discriminate | apply Hmap]].
      rewrite Hold.
      specialize (IH (mk (members self) (Some cm))).
      destruct (invoke depth k Robot.teleopPeriodic
                  (mk (members self) (Some cm))) as [[c s2] tr2].
      cbn [fst snd] in *. destruct IH as [Hc Htr].
      split; [exact Hc|]. now rewrite filter_app, Hmap, Htr.
    + rewrite Hold.
      specialize (IH (mk (members self) (Some cm))).
      destruct (invoke depth k Robot.teleopPeriodic
                  (mk (members self) (Some cm))) as [[c s2] tr2].
      cbn [fst snd] in *. exact IH.
Qed.

(** X9.  [provide_setup]: the wrapped [robotInit] first runs the robot's
    own [robotInit]; if that raises, the exception goes to the caller and
    neither [setup] nor the warning happens; if it returns and the class has
    a [setup], that method runs next, on the instance as [robotInit] left it,
    and its outcome is the outcome of the call; if the class has no [setup],
    one line is logged at warning level and the call returns. *)
Theorem provide_setup_runs_setup_after_robotInit
        (k : klass) (label : string)
        (body : Robot.t -> outcome unit * Robot.t)
        (depth : nat) (self : Robot.t)
        (Hinit : k_robotInit k = Written label body) :
  let wrapped := provide_setup k in
  let r := invoke (S (S depth)) wrapped (k_robotInit wrapped) self in
  (forall e self1,
      body self = (Raise e, self1) ->
      r = (Raised (Inner e), self1, [Ran label]))
  /\ (forall self1,
         body self = (Return tt, self1) ->
         k_setup k = None ->
         r = (Returned, self1, [Ran label; LogNoSetup WARNING]))
  /\ (forall self1 label' body',
         body self = (Return tt, self1) ->
         k_setup k = Some (Written label' body') ->
         r = (match fst (body' self1) with
              | Return _ => Returned
              | Raise e => Raised (Inner e)
              end,
              snd (body' self1), [Ran label; Ran label'])).
Proof.
  cbv zeta. cbn [provide_setup k_robotInit invoke __old_robotInit_setup
                 k_setup].
  rewrite Hinit.
  split; [|split].
  - intros e self1 Hb. now rewrite Hb.
  - intros self1 Hb Hs. now rewrite Hb, Hs.
  - intros self1 label' body' Hb Hs. rewrite Hb, Hs.
    destruct (body' self1) as [[[]|e] self2]; reflexivity.
Qed.

Lemma provide_setup_runs_setup_after_robotInit_witness :
  k_robotInit example_robot
  = Written "robotInit"
      (fun r => (Return tt, Robot.mk example_members (control_manager r)))
  /\ invoke 2 (provide_setup example_robot)
       (k_robotInit (provide_setup example_robot)) fresh_robot
     = (Returned, Robot.mk example_members None,
        [Ran "robotInit"; Ran "setup"]).
Proof.
  split; [reflexivity|].
  exact (proj2 (proj2
           (provide_setup_runs_setup_after_robotInit example_robot
              "robotInit" _ 0 fresh_robot eq_refl))
           (Robot.mk example_members None) "setup"%string
           (fun r => (Return tt, r))
           eq_refl eq_refl).
Defined.

(** X10.  A decorator applied twice to one class breaks it.  The second
    application saves the first wrapper under the name the first wrapper
    looks its predecessor up by, so the wrapper calls itself: [robotInit]
    then raises RecursionError whatever the depth allowed, having run neither
    the robot's own [robotInit] nor [setup], built no manager and logged
    nothing; this holds for [provide_setup] and for [with_ctrl_manager].
    After a doubled [with_ctrl_manager], [teleopPeriodic] never returns
    either, and never reaches the robot's own [teleopPeriodic]. *)
Theorem decorator_applied_twice_recurses
        (k : klass) (depth : nat) (self : Robot.t) :
  let twice_setup := provide_setup (provide_setup k) in
  let twice_ctrl := with_ctrl_manager (with_ctrl_manager k) in
  invoke depth twice_setup (k_robotInit twice_setup) self
  = (Raised RecursionError, self, [])
  /\ invoke depth twice_ctrl (k_robotInit twice_ctrl) self
     = (Raised RecursionError, self, [])
  /\ fst (fst (invoke depth twice_ctrl (k_teleopPeriodic twice_ctrl) self))
     <> Returned
  /\ filter is_ran
       (snd (invoke depth twice_ctrl (k_teleopPeriodic twice_ctrl) self))
     = [].
Proof.
  cbv zeta. split; [|split].
  - apply robotInitSetup_self. reflexivity.
  - apply robotInit_self. reflexivity.
  - apply teleopPeriodic_self. reflexivity.
Qed.

Lemma components_spec (ms : list member) (c : ControlInterface.t) :
  In c (components ms)
  <-> exists m, In m ms
                /\ String.prefix "_" (name m) = false
                /\ is_property m = false
                /\ attr m = Component c.
Proof.
  induction ms as [|m ms IH]; simpl.
  - split; [contradiction | intros [m [[] _]]].
  - destruct (String.prefix "_" (name m)) eqn:Hp; simpl.
    + rewrite IH. split; intros [m' [Hin H]].
      * exists m'. split; [now right | exact H].
      * destruct Hin as [<-|Hin]; [|now exists m'].
        destruct H as [H _]. congruence.
    + destruct (is_property m) eqn:Hq.
      * rewrite IH. split; intros [m' [Hin H]].
        -- exists m'. split; [now right | exact H].
        -- destruct Hin as [<-|Hin]; [|now exists m'].
           destruct H as [_ [H _]]. congruence.
      * destruct (attr m) as [c'| cls |] eqn:Ha; simpl; rewrite IH.
        -- split.
           ++ intros [<-|[m' [Hin H]]].
              ** exists m. now repeat split; auto.
              ** exists m'. split; [now right | exact H].
           ++ intros [m' [[<-|Hin] H]].
              ** left. destruct H as [_ [_ H]]. congruence.
              ** right. now exists m'.
        -- split; intros [m' [Hin H]].
           ++ exists m'. split; [now right | exact H].
           ++ destruct Hin as [<-|Hin]; [|now exists m'].
              destruct H as [_ [_ H]]. congruence.
        -- split; intros [m' [Hin H]].
           ++ exists m'. split; [now right | exact H].
           ++ destruct Hin as [<-|Hin]; [|now exists m'].
              destruct H as [_ [_ H]]. congruence.
Qed.

(** X11.  [with_ctrl_manager]: the wrapped [robotInit] runs the robot's own
    [robotInit] first and looks for components on the instance as that call
    left it.  If it finds none, it raises its own AssertionError and sets
    no manager.  Otherwise it always returns: the assertion of the manager's
    constructor cannot fire here.  The manager it stores has no active mode,
    and an interface is in its registry exactly when it is the value of a
    public attribute that is not a property and its display name is a
    string. *)
Theorem with_ctrl_manager_builds_manager
        (k : klass) (label : string)
        (body : Robot.t -> outcome unit * Robot.t)
        (depth : nat) (self self1 : Robot.t)
        (Hinit : k_robotInit k = Written label body)
        (Hbody : body self = (Return tt, self1)) :
  let wrapped := with_ctrl_manager k in
  let r := invoke (S (S depth)) wrapped (k_robotInit wrapped) self in
  (components (members self1) = [] ->
   r = (Raised (Inner (AssertionError
          "No valid control components found. Do they subclass ControlInterface?")),
        self1, [Ran label]))
  /\ (components (members self1) <> [] ->
      exists cm log,
        ControlManager.__init__ (components (members self1)) = (Return cm, log)
        /\ r = (Returned, Robot.mk (members self1) (Some cm),
                Ran label :: map Manager log)
        /\ control_mode cm = None
        /\ forall c,
             In c (control_interfaces cm)
             <-> (exists m, In m (members self1)
                            /\ String.prefix "_" (name m) = false
                            /\ is_property m = false
                            /\ attr m = Component c)
                 /\ accepted c = true).
Proof.
  cbv zeta.
  cbn [with_ctrl_manager k_robotInit invoke __old_robotInit_ctrlmgnr].
  rewrite Hinit, Hbody. cbv zeta.
  split.
  - intros Hnone. now rewrite Hnone.
  - intros Hsome.
    destruct (components (members self1)) as [|c0 cs] eqn:Hcomps;
      [contradiction|].
    replace (negb (0 <? Z.of_nat (length (c0 :: cs)))) with false
      by (symmetry; apply negb_false_iff, Z.ltb_lt; simpl length; lia).
    rewrite init_spec. cbv zeta.
    eexists _, _. split; [reflexivity|]. split; [reflexivity|].
    split; [reflexivity|].
    intros c. cbn [control_interfaces]. rewrite filter_In.
    rewrite <- components_spec, Hcomps.
    split; intros [Hin Hacc]; (split; [|exact Hacc]).
    + eapply Permutation_in; [apply sorted_reverse_perm | exact Hin].
    + eapply Permutation_in;
        [symmetry; apply sorted_reverse_perm | exact Hin].
Qed.

Lemma with_ctrl_manager_builds_manager_witness :
  components example_members = [modeA; mode0]
  /\ invoke 2 (with_ctrl_manager example_robot)
       (k_robotInit (with_ctrl_manager example_robot)) fresh_robot
     = (Returned,
        Robot.mk example_members
          (Some (ControlManager.mk None [mode0; modeA]
                   [addDefault (PyStr "m0") 0; addObject (PyStr "A") 1])),
        [Ran "robotInit"]).
Proof.
  split; [reflexivity|].
  destruct (proj2 (with_ctrl_manager_builds_manager example_robot
                     "robotInit" _ 0 fresh_robot
                     (Robot.mk example_members None) eq_refl eq_refl))
    as [cm [log [Hcm [Hr _]]]]; [discriminate|].
  injection Hcm as <- <-. exact Hr.
Defined.

Lemma init_returns_nonempty (cs : list ControlInterface.t)
      (cm : ControlManager.t) (log : list event) :
  ControlManager.__init__ cs = (Return cm, log) ->
  negb (0 <? Z.of_nat (length cs)) = false.
Proof.
  destruct cs as [|c cs]; [discriminate|]. intros _.
  apply negb_false_iff, Z.ltb_lt. simpl length. lia.
Qed.

(** X12.  [with_ctrl_manager]: the wrapped [teleopPeriodic] ticks the
    manager before the robot's own [teleopPeriodic] runs.  Until [robotInit]
    has stored a manager it raises AttributeError and the robot's own
    [teleopPeriodic] does not run.  With a manager and no active mode only
    the robot's own method runs; with an active mode, that mode's
    [teleopPeriodic] is called first, and if it raises, the exception goes to
    the caller and the robot's own method is skipped. *)
Theorem decorated_teleopPeriodic_ticks_manager_first
        (k : klass) (label : string)
        (body : Robot.t -> outcome unit * Robot.t)
        (depth : nat) (self : Robot.t)
        (Hperiodic : k_teleopPeriodic k = Written label body) :
  let wrapped := with_ctrl_manager k in
  let r := invoke (S (S depth)) wrapped (k_teleopPeriodic wrapped) self in
  (control_manager self = None ->
   r = (Raised (AttributeError "__control_manager"), self, []))
  /\ (forall cm,
         control_manager self = Some cm ->
         control_mode cm = None ->
         r = (completed (fst (body self)), snd (body self), [Ran label]))
  /\ (forall cm m,
         control_manager self = Some cm ->
         control_mode cm = Some m ->
         ControlInterface.teleopPeriodic m = Return tt ->
         r = (completed (fst (body self)), snd (body self),
              [Manager (Call m HteleopPeriodic); Ran label]))
  /\ (forall cm m e,
         control_manager self = Some cm ->
         control_mode cm = Some m ->
         ControlInterface.teleopPeriodic m = Raise e ->
         r = (Raised (Inner e), self, [Manager (Call m HteleopPeriodic)])).
Proof.
  cbv zeta.
  cbn [with_ctrl_manager k_teleopPeriodic invoke __old_teleopPeriodic].
  rewrite Hperiodic. destruct self as [ms mgr]. cbn [control_manager members].
  split; [|split; [|split]].
  - intros ->. reflexivity.
  - intros cm -> Hmode. cbv zeta. rewrite teleopPeriodic_spec, Hmode.
    cbn [ControlManager.value ControlManager.self ControlManager.trace map app].
    destruct (body (Robot.mk ms (Some cm))) as [[[]|e] s2]; reflexivity.
  - intros cm m -> Hmode Hm. cbv zeta.
    rewrite teleopPeriodic_spec, Hmode, Hm.
    cbn [ControlManager.value ControlManager.self ControlManager.trace map app].
    destruct (body (Robot.mk ms (Some cm))) as [[[]|e] s2]; reflexivity.
  - intros cm m e -> Hmode Hm. cbv zeta.
    rewrite teleopPeriodic_spec, Hmode, Hm. reflexivity.
Qed.

Lemma decorated_teleopPeriodic_ticks_manager_first_witness :
  k_teleopPeriodic example_robot
  = Written "teleopPeriodic" (fun r => (Return tt, r))
  /\ invoke 2 (with_ctrl_manager example_robot)
       (k_teleopPeriodic (with_ctrl_manager example_robot)) fresh_robot
     = (Raised (AttributeError "__control_manager"), fresh_robot, []).
Proof.
  split; [reflexivity|].
  exact (proj1 (decorated_teleopPeriodic_ticks_manager_first example_robot
                  "teleopPeriodic" _ 0 fresh_robot eq_refl)
           eq_refl).
Defined.

(** X13.  The two decorators work together on one class, in either order,
    and the order decides when [setup] runs.  With [with_ctrl_manager]
    applied last, [robotInit] runs the robot's own [robotInit], then [setup],
    and builds the manager from the components found after [setup].  With
    [provide_setup] applied last, the manager is built right after the
    robot's own [robotInit], and [setup] runs on an instance that already
    holds it. *)
Theorem decorators_compose_in_both_orders
        (k : klass) (label label' : string)
        (body body' : Robot.t -> outcome unit * Robot.t)
        (depth : nat) (self self1 : Robot.t)
        (Hinit : k_robotInit k = Written label body)
        (Hsetup : k_setup k = Some (Written label' body'))
        (Hbody : body self = (Return tt, self1)) :
  let ctrl_last := with_ctrl_manager (provide_setup k) in
  let setup_last := provide_setup (with_ctrl_manager k) in
  (forall self2 cm log,
      body' self1 = (Return tt, self2) ->
      ControlManager.__init__ (components (members self2)) = (Return cm, log) ->
      invoke (S (S (S depth))) ctrl_last (k_robotInit ctrl_last) self
      = (Returned, Robot.mk (members self2) (Some cm),
         [Ran label; Ran label'] ++ map Manager log))
  /\ (forall cm log,
         ControlManager.__init__ (components (members self1)) = (Return cm, log) ->
         invoke (S (S (S depth))) setup_last (k_robotInit setup_last) self
         = (completed (fst (body' (Robot.mk (members self1) (Some cm)))),
            snd (body' (Robot.mk (members self1) (Some cm))),
            (Ran label :: map Manager log) ++ [Ran label'])).
Proof.
  cbv zeta. split.
  - intros self2 cm log Hb' Hcm.
    cbn [with_ctrl_manager provide_setup k_robotInit invoke
         __old_robotInit_ctrlmgnr __old_robotInit_setup k_setup].
    rewrite Hinit, Hbody, Hsetup, Hb'. cbv zeta.
    cbn [app]. rewrite (init_returns_nonempty _ _ _ Hcm), Hcm. reflexivity.
  - intros cm log Hcm.
    cbn [with_ctrl_manager provide_setup k_robotInit invoke
         __old_robotInit_ctrlmgnr __old_robotInit_setup k_setup].
    rewrite Hinit, Hbody, Hsetup. cbv zeta.
    rewrite (init_returns_nonempty _ _ _ Hcm), Hcm.
    destruct (body' (Robot.mk (members self1) (Some cm))) as [[[]|e] s2];
      reflexivity.
Qed.

Lemma decorators_compose_in_both_orders_witness :
  k_setup example_robot = Some (Written "setup" (fun r => (Return tt, r)))
  /\ invoke 3 (provide_setup (with_ctrl_manager example_robot))
       (k_robotInit (provide_setup (with_ctrl_manager example_robot)))
       fresh_robot
     = (Returned,
        Robot.mk example_members
          (Some (ControlManager.mk None [mode0; modeA]
                   [addDefault (PyStr "m0") 0; addObject (PyStr "A") 1])),
        [Ran "robotInit"; Ran "setup"]).
Proof.
  split; [reflexivity|].
  exact (proj2 (decorators_compose_in_both_orders example_robot
                  "robotInit" "setup" _ _ 0 fresh_robot
                  (Robot.mk example_members None) eq_refl eq_refl eq_refl)
           (ControlManager.mk None [mode0; modeA]
              [addDefault (PyStr "m0") 0; addObject (PyStr "A") 1])
           [] eq_refl).
Defined.

End RobotFacts.
